(** * cliToolsBC: a task table with a trigger-maintained history table

    Shallow embedding of [src/cliToolsBC.py].  The program keeps two SQLite
    tables, [tasks] and [tasks_history], and three AFTER triggers that copy
    every inserted, updated or deleted row of [tasks] into [tasks_history].

    Modelling decisions, each taken from the source:
    - [tasks.id] is an INTEGER PRIMARY KEY, i.e. the rowid of the table: the
      table is a finite map from rowid to the remaining columns.
    - [tasks_history] is only ever inserted into with an automatically chosen
      rowid, so its rows are kept as a list in insertion order, which is the
      order of a table scan.
    - a TEXT column holds a string or NULL ([option string]); [tasks.title]
      is declared NOT NULL and therefore holds a [string].
    - CURRENT_TIMESTAMP is an input of every call ([now]): the reading of the
      clock at the time the statement runs.  One statement and the trigger it
      fires read the same clock value.
    - rowids are unbounded integers; SQLite's behaviour once a rowid reaches
      2^63-1 is not modelled.  An integer passed by a caller is bound to a
      placeholder only if it fits 64 bits, see [fits].
    - foreign keys are not enforced (SQLite's default, which the program
      never changes), so [tasks_history.task_id] may name a deleted task. *)

From Stdlib Require Import ZArith Lia.
From stdpp Require Import gmap strings list sorting.

Local Open Scope Z_scope.

(** ** Data model *)

Abbreviation timestamp := Z (only parsing).

(** The three values the triggers write into [tasks_history.operation]. *)
Inductive op : Set := INSERT | UPDATE | DELETE.

#[global] Instance op_eq_dec : EqDecision op.
Proof. solve_decision. Defined.

(** A row of [tasks], without its key [id]. *)
Record task : Set := Task {
  title : string;
  description : option string;
  status : option string;
  priority : option string;
  created_at : timestamp;
  updated_at : timestamp
}.

(** A row of [tasks_history]. *)
Record history : Set := History {
  history_id : Z;
  task_id : Z;
  h_title : option string;
  h_description : option string;
  h_status : option string;
  h_priority : option string;
  operation : op;
  changed_at : timestamp
}.

Record database : Type := Database {
  tasks : gmap Z task;
  tasks_history : list history
}.

(** [create_database]: both tables are created empty (IF NOT EXISTS). *)
Definition create_database : database :=
  {| tasks := ∅; tasks_history := [] |}.

(** The four columns a history row copies from a task row. *)
Definition snapshot : Set :=
  (option string * option string * option string * option string)%type.

Definition task_snapshot (row : task) : snapshot :=
  (Some (title row), description row, status row, priority row).

Definition history_snapshot (h : history) : snapshot :=
  (h_title h, h_description h, h_status h, h_priority h).

(** ** SQL statements *)

Inductive constraint : Set := NOT_NULL_tasks_title | UNIQUE_tasks_id.

(** The exceptions the calls of this program raise: [IntegrityError] from
    a statement that violates a constraint, [OverflowError] from binding a
    Python integer that does not fit an SQLite INTEGER, [TypeError] from
    formatting [None] under a width such as [{:^30}]. *)
Inductive exn : Set :=
  | IntegrityError (c : constraint)
  | OverflowError
  | TypeError.

Inductive outcome (A : Type) : Type :=
  | Returned (a : A)
  | Raised (e : exn).
Arguments Returned {A} a.
Arguments Raised {A} e.

(** The rowid SQLite picks for a row inserted without one: 1 in an empty
    table, otherwise one more than the largest rowid in use. *)
Definition new_rowid (rowids : list Z) : Z :=
  match rowids with
  | [] => 1
  | r :: rs => foldr Z.max r rs + 1
  end.

(** [INSERT INTO tasks_history (task_id, title, description, status,
    priority, operation, changed_at) VALUES (...)], the body shared by the
    three triggers. *)
Definition insert_into_tasks_history
    (tid : Z) (s : snapshot) (o : op) (now : timestamp) (db : database)
    : database :=
  let '(t, d, st, p) := s in
  {| tasks := tasks db;
     tasks_history :=
       tasks_history db ++
       [ {| history_id := new_rowid (history_id <$> tasks_history db);
            task_id := tid;
            h_title := t; h_description := d; h_status := st; h_priority := p;
            operation := o;
            changed_at := now |} ] |}.

(** [setup_triggers]: the three triggers, with NEW or OLD as argument. *)
Definition tasks_insert_trigger (now : timestamp) (NEW_id : Z) (NEW : task)
    (db : database) : database :=
  insert_into_tasks_history NEW_id (task_snapshot NEW) INSERT now db.

Definition tasks_update_trigger (now : timestamp) (NEW_id : Z) (NEW : task)
    (db : database) : database :=
  insert_into_tasks_history NEW_id (task_snapshot NEW) UPDATE now db.

Definition tasks_delete_trigger (now : timestamp) (OLD_id : Z) (OLD : task)
    (db : database) : database :=
  insert_into_tasks_history OLD_id (task_snapshot OLD) DELETE now db.

(** [INSERT INTO tasks (id?, title, description, status, priority,
    updated_at) VALUES (?, ..., CURRENT_TIMESTAMP)].  [created_at] is not
    listed and takes its default, CURRENT_TIMESTAMP; [status] and [priority]
    are listed, so their column defaults never apply.  NOT NULL is checked
    before the uniqueness of the key.  Returns [lastrowid]. *)
Definition insert_into_tasks
    (now : timestamp) (id : option Z)
    (ttl dsc st pr : option string) (db : database)
    : outcome (Z * database) :=
  match ttl with
  | None => Raised (IntegrityError NOT_NULL_tasks_title)
  | Some t =>
      let rowid := default (new_rowid (elements (dom (tasks db)))) id in
      match tasks db !! rowid with
      | Some _ => Raised (IntegrityError UNIQUE_tasks_id)
      | None =>
          let NEW := {| title := t; description := dsc; status := st;
                        priority := pr;
                        created_at := now; updated_at := now |} in
          Returned
            (rowid,
             tasks_insert_trigger now rowid NEW
               {| tasks := <[rowid := NEW]> (tasks db);
                  tasks_history := tasks_history db |})
      end
  end.

(** The SET clause of an UPDATE on [tasks]: the columns assigned, in order,
    each with the SQL value bound to its placeholder.  Both UPDATE statements
    of the program also assign [updated_at = CURRENT_TIMESTAMP]. *)
Inductive column : Set := TITLE | DESCRIPTION | STATUS | PRIORITY.

Definition set_column (s : snapshot) (a : column * option string) : snapshot :=
  let '(t, d, st, p) := s in
  match a.1 with
  | TITLE => (a.2, d, st, p)
  | DESCRIPTION => (t, a.2, st, p)
  | STATUS => (t, d, a.2, p)
  | PRIORITY => (t, d, st, a.2)
  end.

(** [UPDATE tasks SET ..., updated_at = CURRENT_TIMESTAMP WHERE id = ?]. *)
Definition update_tasks_where_id
    (now : timestamp) (set_clause : list (column * option string))
    (id : Z) (db : database) : outcome database :=
  match tasks db !! id with
  | None => Returned db
  | Some OLD =>
      let '(t, d, st, p) := foldl set_column (task_snapshot OLD) set_clause in
      match t with
      | None => Raised (IntegrityError NOT_NULL_tasks_title)
      | Some t =>
          let NEW := {| title := t; description := d; status := st;
                        priority := p;
                        created_at := created_at OLD;
                        updated_at := now |} in
          Returned
            (tasks_update_trigger now id NEW
               {| tasks := <[id := NEW]> (tasks db);
                  tasks_history := tasks_history db |})
      end
  end.

(** [DELETE FROM tasks WHERE id = ?]. *)
Definition delete_from_tasks_where_id
    (now : timestamp) (id : Z) (db : database) : database :=
  match tasks db !! id with
  | None => db
  | Some OLD =>
      tasks_delete_trigger now id OLD
        {| tasks := delete id (tasks db);
           tasks_history := tasks_history db |}
  end.

(** [SELECT id FROM tasks WHERE id = ?] followed by [fetchone()]. *)
Definition select_id_from_tasks_where_id (id : Z) (db : database) : option Z :=
  match tasks db !! id with
  | Some _ => Some id
  | None => None
  end.

(** [SELECT ... FROM tasks_history WHERE history_id = ?] followed by
    [fetchone()]: the first matching row of the scan. *)
Definition select_from_tasks_history_where_history_id
    (hid : Z) (db : database) : option history :=
  head (filter (λ h, history_id h = hid) (tasks_history db)).

(** ORDER BY on one integer-valued key: SQLite's sorter is a merge sort that
    keeps rows with equal keys in the order of the scan, modelled by a stable
    insertion sort. *)
Fixpoint insert_by {A : Type} (key : A → Z) (x : A) (l : list A) : list A :=
  match l with
  | [] => [x]
  | y :: l' =>
      if Z.leb (key x) (key y) then x :: l else y :: insert_by key x l'
  end.

Definition order_by {A : Type} (key : A → Z) (l : list A) : list A :=
  foldr (insert_by key) [] l.

(** [SELECT ... FROM tasks_history WHERE task_id = ? ORDER BY changed_at ASC]
    followed by [fetchall()]. *)
Definition select_from_tasks_history_where_task_id
    (tid : Z) (db : database) : list history :=
  order_by changed_at (filter (λ h, task_id h = tid) (tasks_history db)).

(** [SELECT id, ... FROM tasks [WHERE status = ?] ORDER BY id ASC] followed by
    [fetchall()]; [where_status = None] stands for the query without its
    WHERE clause.  A NULL status matches no filter. *)
Definition select_from_tasks
    (where_status : option string) (db : database) : list (Z * task) :=
  let rows := map_to_list (tasks db) in
  order_by fst
    match where_status with
    | None => rows
    | Some s => filter (λ r, status r.2 = Some s) rows
    end.

(** ** The connection

    Python's [sqlite3] opens a transaction implicitly in front of the first
    INSERT, UPDATE or DELETE and keeps it open until [commit()].  Statements
    read and write the [working] copy; [commit] makes it the [committed]
    one.  A statement that raises leaves the working copy as it was. *)
Record connection : Type := Connection {
  committed : database;
  working : database
}.

Definition execute (conn : connection) (db' : database) : connection :=
  {| committed := committed conn; working := db' |}.

Definition commit (conn : connection) : connection :=
  {| committed := working conn; working := working conn |}.

(** [initialize_task_manager] on a fresh [tasks.db]: empty tables, the
    triggers installed, everything committed. *)
Definition initialize_task_manager : connection :=
  {| committed := create_database; working := create_database |}.

(** What the functions print; the layout of the table printed by
    [list_tasks] is presentation and is kept as the rows whose lines were
    printed. *)
Inductive message : Type :=
  | Task_added_successfully (id : Z)
  | No_task_found_with_ID (id : Z)
  | No_updates_provided
  | Task_updated_successfully (id : Z)
  | Task_deleted_successfully (id : Z)
  | No_tasks_found
  | Current_Tasks (rows : list (Z * task))
  | No_history_record_found_with_ID (hid : Z)
  | Task_restored_to_version (id hid : Z).

(** What a call leaves behind: the connection, the lines printed, and the
    value returned or the exception that escaped. *)
Record reply (A : Type) : Type := Reply {
  conn_after : connection;
  printed : list message;
  result : outcome A
}.
Arguments Reply {A} _ _ _.
Arguments conn_after {A} _.
Arguments printed {A} _.
Arguments result {A} _.

(** ** The functions of the program *)

(** The signed 64-bit range of an SQLite INTEGER. *)
Definition in_int64 (z : Z) : bool :=
  (- 2 ^ 63 <=? z) && (z <=? 2 ^ 63 - 1).

(** Binding the Python integer [z] to a placeholder that is compared with a
    column: [sqlite3] raises [OverflowError] unless [z] fits 64 bits.  The
    rowids of this model are unbounded, so an integer that the column
    already holds ([held]) is taken to fit as well; on every database that
    SQLite can hold this is the 64-bit test. *)
Definition fits (held : Prop) `{!Decision held} (z : Z) : bool :=
  in_int64 z || bool_decide held.

(** [add_task(conn, title, description, status, priority)]; a Python [None]
    is bound as SQL NULL.  The defaults [status='pending'] and
    [priority='medium'] belong to the call, see [add_task_default]. *)
Definition add_task (conn : connection) (now : timestamp)
    (ttl dsc st pr : option string) : reply Z :=
  match insert_into_tasks now None ttl dsc st pr (working conn) with
  | Raised e => Reply conn [] (Raised e)
  | Returned (lastrowid, db') =>
      let conn := commit (execute conn db') in
      Reply conn [Task_added_successfully lastrowid] (Returned lastrowid)
  end.


(** [update_task(conn, task_id, title, description, status, priority)]: an
    argument that is not [None] appends its column to [update_parts] and its
    value to [values]; the two lists are kept as one list of pairs. *)
Definition provided (c : column) (v : option string)
    (update_parts : list (column * option string))
    : list (column * option string) :=
  match v with
  | Some x => update_parts ++ [(c, Some x)]
  | None => update_parts
  end.

Definition update_task (conn : connection) (now : timestamp) (id : Z)
    (ttl dsc st pr : option string) : reply bool :=
  if negb (fits (is_Some (tasks (working conn) !! id)) id)
  then Reply conn [] (Raised OverflowError)
  else
  match select_id_from_tasks_where_id id (working conn) with
  | None => Reply conn [No_task_found_with_ID id] (Returned false)
  | Some _ =>
      let update_parts := [] in
      let update_parts := provided TITLE ttl update_parts in
      let update_parts := provided DESCRIPTION dsc update_parts in
      let update_parts := provided STATUS st update_parts in
      let update_parts := provided PRIORITY pr update_parts in
      match update_parts with
      | [] => Reply conn [No_updates_provided] (Returned false)
      | _ :: _ =>
          match update_tasks_where_id now update_parts id (working conn) with
          | Raised e => Reply conn [] (Raised e)
          | Returned db' =>
              let conn := commit (execute conn db') in
              Reply conn [Task_updated_successfully id] (Returned true)
          end
      end
  end.

(** [complete_task(conn, task_id)]. *)
Definition complete_task (conn : connection) (now : timestamp) (id : Z)
    : reply bool :=
  update_task conn now id None None (Some "completed"%string) None.

(** [delete_task(conn, task_id)]. *)
Definition delete_task (conn : connection) (now : timestamp) (id : Z)
    : reply bool :=
  if negb (fits (is_Some (tasks (working conn) !! id)) id)
  then Reply conn [] (Raised OverflowError)
  else
  match select_id_from_tasks_where_id id (working conn) with
  | None => Reply conn [No_task_found_with_ID id] (Returned false)
  | Some _ =>
      let db' := delete_from_tasks_where_id now id (working conn) in
      let conn := commit (execute conn db') in
      Reply conn [Task_deleted_successfully id] (Returned true)
  end.

(** A [for] loop that formats and prints one line per row: the rows
    printed, and [TypeError] at the first row that holds a [None] in a
    column printed under a width. *)
Fixpoint print_each {A : Type} (formats : A → bool) (rows : list A)
    : list A * outcome unit :=
  match rows with
  | [] => ([], Returned ())
  | r :: rows' =>
      if formats r
      then let '(shown, out) := print_each formats rows' in (r :: shown, out)
      else ([], Raised TypeError)
  end.

(** The columns of a fetched task that [list_tasks] formats and that can be
    NULL: [description], [status], [priority]. *)
Definition task_formats (r : Z * task) : bool :=
  bool_decide (is_Some (description r.2) ∧ is_Some (status r.2) ∧
               is_Some (priority r.2)).

(** [list_tasks(conn, filter_status)]: the WHERE clause is added when
    [filter_status] is truthy, i.e. neither [None] nor the empty string.
    [Current_Tasks] carries the rows whose lines were printed under the
    header. *)
Definition list_tasks (conn : connection) (filter_status : option string)
    : reply unit :=
  let where_status :=
    match filter_status with
    | Some s => if bool_decide (s = EmptyString) then None else Some s
    | None => None
    end in
  match select_from_tasks where_status (working conn) with
  | [] => Reply conn [No_tasks_found] (Returned ())
  | rows =>
      let '(shown, out) := print_each task_formats rows in
      Reply conn [Current_Tasks shown] out
  end.

(** [get_task_history(conn, task_id)]. *)
Definition get_task_history (conn : connection) (tid : Z)
    : outcome (list history) :=
  if negb (fits (tid ∈ task_id <$> tasks_history (working conn)) tid)
  then Raised OverflowError
  else Returned (select_from_tasks_history_where_task_id tid (working conn)).

(** [restore_task_version(conn, history_id)]. *)
Definition restore_task_version (conn : connection) (now : timestamp)
    (hid : Z) : reply bool :=
  if negb (fits (hid ∈ history_id <$> tasks_history (working conn)) hid)
  then Reply conn [] (Raised OverflowError)
  else
  match select_from_tasks_history_where_history_id hid (working conn) with
  | None => Reply conn [No_history_record_found_with_ID hid] (Returned false)
  | Some history_record =>
      let tid := task_id history_record in
      let '(ttl, dsc, st, pr) := history_snapshot history_record in
      let executed :=
        match select_id_from_tasks_where_id tid (working conn) with
        | None =>
            match insert_into_tasks now (Some tid) ttl dsc st pr (working conn) with
            | Raised e => Raised e
            | Returned (_, db') => Returned db'
            end
        | Some _ =>
            update_tasks_where_id now
              [(TITLE, ttl); (DESCRIPTION, dsc); (STATUS, st); (PRIORITY, pr)]
              tid (working conn)
        end in
      match executed with
      | Raised e => Reply conn [] (Raised e)
      | Returned db' =>
          let conn := commit (execute conn db') in
          Reply conn [Task_restored_to_version tid hid] (Returned true)
      end
  end.

(** ** Sessions

    A session is a sequence of calls of the functions above, the ones the
    menu of [main] dispatches to, each with the clock reading at the time it
    runs.  A call that raises ends the process without a commit; the next
    call finds the database as the last commit left it. *)
Inductive command : Type :=
  | Add (ttl dsc st pr : option string)
  | Edit (id : Z) (ttl dsc st pr : option string)
  | Complete (id : Z)
  | Delete (id : Z)
  | List (filter_status : option string)
  | History_of (tid : Z)
  | Restore (hid : Z).

Definition exec (conn : connection) (now : timestamp) (c : command)
    : connection :=
  match c with
  | Add ttl dsc st pr => conn_after (add_task conn now ttl dsc st pr)
  | Edit id ttl dsc st pr => conn_after (update_task conn now id ttl dsc st pr)
  | Complete id => conn_after (complete_task conn now id)
  | Delete id => conn_after (delete_task conn now id)
  | List filter_status => conn_after (list_tasks conn filter_status)
  | History_of tid => conn
  | Restore hid => conn_after (restore_task_version conn now hid)
  end.

Definition run (session : list (timestamp * command)) : connection :=
  foldl (λ conn tc, exec conn tc.1 tc.2) initialize_task_manager session.

(** The entity store and the history log of the claims: what is committed. *)
Definition entity_store (conn : connection) : gmap Z task :=
  tasks (committed conn).

Definition history_log (conn : connection) : list history :=
  tasks_history (committed conn).

(** [get(id)] of the entity store. *)
Definition get (conn : connection) (id : Z) : option task :=
  entity_store conn !! id.

(** ** Properties used by the statements below *)

(** [h] is the most recent record of task [id]: among the records of [id]
    it has the highest [history_id]. *)
Definition most_recent (log : list history) (id : Z) (h : history) : Prop :=
  h ∈ log ∧ task_id h = id ∧
  ∀ h', h' ∈ log → task_id h' = id → history_id h' ≤ history_id h.

(** Ascending in [changed_at], and in [history_id] among equal [changed_at]. *)
Definition changed_at_then_history_id (a b : history) : Prop :=
  changed_at a < changed_at b ∨
  (changed_at a = changed_at b ∧ history_id a < history_id b).

(** The clock never ran backwards between two commands of the session. *)
Definition clock_monotone (session : list (timestamp * command)) : Prop :=
  StronglySorted Z.le session.*1.

(** What every committed database of the program satisfies: history rowids
    ascend along the table, every logged title is a text, and every live
    task agrees with the last record logged for it. *)
Record consistent (db : database) : Prop := Consistent {
  history_ids_ascend :
    StronglySorted (λ a b, history_id a < history_id b) (tasks_history db);
  history_titles :
    Forall (λ h, is_Some (h_title h)) (tasks_history db);
  tasks_logged :
    ∀ id row, tasks db !! id = Some row →
      ∃ h, last (filter (λ h, task_id h = id) (tasks_history db)) = Some h ∧
           history_snapshot h = task_snapshot row ∧ operation h ≠ DELETE
}.

(** The table after the row of [id] has been written as [NEW] (or removed,
    for [NEW = None]) and the trigger for [o] has logged [logged_row]. *)
Definition written (db : database) (id : Z) (NEW : option task)
    (logged_row : task) (o : op) (now : timestamp) : database :=
  insert_into_tasks_history id (task_snapshot logged_row) o now
    {| tasks := match NEW with
                | Some row => <[id := row]> (tasks db)
                | None => delete id (tasks db)
                end;
       tasks_history := tasks_history db |}.

(** An argument of [update_task] that is [None] keeps the stored value. *)
Definition supplied (new old : option string) : option string :=
  match new with
  | Some v => Some v
  | None => old
  end.

(** The record a trigger appends for task [id] in state [row]. *)
Definition logged_record (db : database) (id : Z) (row : task) (o : op)
    (now : timestamp) : history :=
  {| history_id := new_rowid (history_id <$> tasks_history db);
     task_id := id;
     h_title := Some (title row);
     h_description := description row;
     h_status := status row;
     h_priority := priority row;
     operation := o;
     changed_at := now |}.

(** Nothing is pending on the connection. *)
Definition synced (conn : connection) : Prop :=
  working conn = committed conn.

(** ** The rest of the program: display and the handlers of [main] *)

(** [s[:n]]: the first [n] characters of [s], all of [s] when it is shorter.
    A string is taken as its sequence of characters. *)
Fixpoint slice_to (n : nat) (s : string) : string :=
  match n, s with
  | S n', String c s' => String c (slice_to n' s')
  | _, _ => EmptyString
  end.

(** [(description[:27] + '...') if description and len(description) > 30
    else description] of [list_tasks]. *)
Definition shown_description (dsc : option string) : option string :=
  match dsc with
  | Some d =>
      if bool_decide (30 < String.length d)%nat
      then Some (slice_to 27 d +:+ "...")
      else Some d
  | None => None
  end.

(** The values [list_tasks] formats for one fetched row: [task_id],
    [title[:20]], the shortened description, [status], [priority] and
    [updated_at]; the padding of the columns is not modelled. *)
Definition list_tasks_line (r : Z * task)
    : Z * string * option string * option string * option string * timestamp :=
  (r.1, slice_to 20 (title r.2), shown_description (description r.2),
   status r.2, priority r.2, updated_at r.2).

(** What [display_task_history] prints: the notice that there is no
    history, or, under the header, one line per record with [history_id],
    [operation], [changed_at], [title[:20] if title else ""], [status] and
    [priority]. *)
Inductive history_display : Type :=
  | No_history_found_for_task (tid : Z)
  | History_for_Task (tid : Z)
      (lines : list (Z * op * timestamp * string * option string * option string)).

Definition history_line (record : history)
    : Z * op * timestamp * string * option string * option string :=
  (history_id record, operation record, changed_at record,
   match h_title record with
   | Some t => slice_to 20 t
   | None => EmptyString
   end,
   h_status record, h_priority record).

(** The columns of a record that [display_task_history] formats and that
    can be NULL: [status] and [priority] (the title is replaced first). *)
Definition record_formats (record : history) : bool :=
  bool_decide (is_Some (h_status record) ∧ is_Some (h_priority record)).

(** [display_task_history(conn, task_id)]: what is printed, and how the
    call ends. *)
Definition display_task_history (conn : connection) (tid : Z)
    : list history_display * outcome unit :=
  match get_task_history conn tid with
  | Raised e => ([], Raised e)
  | Returned [] => ([No_history_found_for_task tid], Returned ())
  | Returned history =>
      let '(shown, out) := print_each record_formats history in
      ([History_for_Task tid (history_line <$> shown)], out)
  end.

(** A text typed at a prompt of [main] counts when it is not empty. *)
Definition typed (input : string) : option string :=
  if bool_decide (input = EmptyString) then None else Some input.



(** The state-changing choices of the menu of [main], with the texts and
    the numbers read at the prompts, and the call each one makes. *)
Inductive menu : Type :=
  | Menu_add (title_input description_input priority_input : string)
  | Menu_edit (id : Z)
      (title_input description_input status_input priority_input : string)
  | Menu_complete (id : Z)
  | Menu_delete (id : Z)
  | Menu_restore (hid : Z).

Definition menu_call (m : menu) : command :=
  match m with
  | Menu_add t d p =>
      Add (Some t) (Some d) (Some "pending"%string)
          (Some (default "medium"%string (typed p)))
  | Menu_edit id t d s p => Edit id (typed t) (typed d) (typed s) (typed p)
  | Menu_complete id => Complete id
  | Menu_delete id => Delete id
  | Menu_restore hid => Restore hid
  end.

(** ** Logged writes and the life cycle of a task *)

(** The three writes that reach the database, each with the record its
    trigger appends: a row inserted under an id that is free, either the
    next rowid or the [task_id] of a record being restored; a row
    overwritten; a row deleted. *)
Inductive logged_write (db : database) (now : timestamp) : database → Prop :=
  | write_insert id row :
      tasks db !! id = None →
      created_at row = now → updated_at row = now →
      id = new_rowid (elements (dom (tasks db))) ∨
      (∃ h0, h0 ∈ tasks_history db ∧ task_id h0 = id ∧
             history_snapshot h0 = task_snapshot row) →
      logged_write db now (written db id (Some row) row INSERT now)
  | write_update id OLD row :
      tasks db !! id = Some OLD →
      created_at row = created_at OLD → updated_at row = now →
      logged_write db now (written db id (Some row) row UPDATE now)
  | write_delete id OLD :
      tasks db !! id = Some OLD →
      logged_write db now (written db id None OLD DELETE now).

(** Replaying the operations logged for one task: INSERT makes an absent
    task live, UPDATE keeps a live task live, DELETE makes it absent; any
    other step is not a life of a task. *)
Definition life_step (live : option bool) (o : op) : option bool :=
  match live, o with
  | Some false, INSERT => Some true
  | Some true, UPDATE => Some true
  | Some true, DELETE => Some false
  | _, _ => None
  end.

Definition replay (ops : list op) : option bool :=
  foldl life_step (Some false) ops.

(** The operations logged for task [id], in log order. *)
Definition operations_of (log : list history) (id : Z) : list op :=
  operation <$> filter (λ h, task_id h = id) log.

(** How many records of the log carry the tag [o]. *)
Definition count_op (o : op) (log : list history) : nat :=
  length (filter (λ h, operation h = o) log).

(** A session at the menu of [main]. *)
Definition menu_run (choices : list (timestamp * menu)) : connection :=
  run ((λ tm, (tm.1, menu_call tm.2)) <$> choices).

(** No NULL among the four columns, and neither status nor priority is the
    empty text. *)
Definition filled (s : snapshot) : Prop :=
  let '(t, d, st, p) := s in
  is_Some t ∧ is_Some d ∧
  (∃ x, st = Some x ∧ x ≠ EmptyString) ∧
  (∃ x, p = Some x ∧ x ≠ EmptyString).

(** The rows [list_tasks] is asked for: all of them when [filter_status] is
    [None] or empty, otherwise those with exactly that status. *)
Definition asked_for (filter_status : option string) (row : task) : Prop :=
  match filter_status with
  | None => True
  | Some s => s = EmptyString ∨ status row = Some s
  end.

(** ** Row identifiers *)

Lemma foldr_max_lower (r : Z) (rs : list Z) :
  r ≤ foldr Z.max r rs ∧ Forall (λ x, x ≤ foldr Z.max r rs) rs.
Proof.
  induction rs as [|x rs [IHr IHrs]]; simpl.
  - split; [lia | constructor].
  - split; [lia |]. constructor; [lia |].
    eapply Forall_impl; [exact IHrs |]. simpl. intros. lia.
Qed.

Lemma new_rowid_above (rowids : list Z) (x : Z) :
  x ∈ rowids → x < new_rowid rowids.
Proof.
  destruct rowids as [|r rs]; [by intros ?%elem_of_nil |].
  intros Hx. unfold new_rowid.
  destruct (foldr_max_lower r rs) as [Hr Hrs].
  apply elem_of_cons in Hx as [-> | Hx]; [lia |].
  rewrite Forall_forall in Hrs. specialize (Hrs _ Hx). simpl in Hrs. lia.
Qed.

Lemma new_rowid_unused (m : gmap Z task) :
  m !! new_rowid (elements (dom m)) = None.
Proof.
  destruct (m !! new_rowid (elements (dom m))) as [row|] eqn:E; [| done].
  assert (new_rowid (elements (dom m)) ∈ elements (dom m)) as Hin.
  { apply elem_of_elements, elem_of_dom. eauto. }
  apply new_rowid_above in Hin. lia.
Qed.

(** ** ORDER BY *)

Section order_by.
Context {A : Type} (key : A → Z).

Lemma insert_by_Permutation (x : A) (l : list A) :
  insert_by key x l ≡ₚ x :: l.
Proof.
  induction l as [|y l IH]; simpl; [done |].
  destruct (key x <=? key y); [done |].
  rewrite IH. apply Permutation_swap.
Qed.

Lemma order_by_Permutation (l : list A) : order_by key l ≡ₚ l.
Proof.
  induction l as [|x l IH]; simpl; [done |].
  fold (order_by key l). by rewrite insert_by_Permutation, IH.
Qed.

(** Inserting [x], which the tie-break [R] puts in front of every element
    of [l], keeps [l] sorted by key and then by [R]. *)
Lemma insert_by_sorted (R : relation A) (x : A) (l : list A) :
  Forall (R x) l →
  StronglySorted (λ a b, key a < key b ∨ (key a = key b ∧ R a b)) l →
  StronglySorted (λ a b, key a < key b ∨ (key a = key b ∧ R a b))
                 (insert_by key x l).
Proof.
  induction l as [|y l IH]; simpl; intros HR Hs.
  - repeat constructor.
  - apply StronglySorted_cons in Hs as [Hy Hs].
    apply Forall_cons in HR as [HRy HR].
    destruct (key x <=? key y) eqn:E.
    + apply Z.leb_le in E. constructor.
      * by constructor.
      * constructor.
        { destruct (decide (key x = key y)); [right; done | left; lia]. }
        rewrite Forall_forall in Hy, HR |- *. intros z Hz.
        specialize (Hy z Hz). specialize (HR z Hz).
        destruct (decide (key x = key z)); [right; done | left; lia].
    + apply Z.leb_gt in E. constructor; [by apply IH |].
      rewrite insert_by_Permutation. constructor; [left; lia | done].
Qed.

Lemma order_by_sorted (R : relation A) (l : list A) :
  StronglySorted R l →
  StronglySorted (λ a b, key a < key b ∨ (key a = key b ∧ R a b))
                 (order_by key l).
Proof.
  induction l as [|x l IH]; simpl; intros Hs; [constructor |].
  apply StronglySorted_cons in Hs as [Hx Hs]. fold (order_by key l).
  apply insert_by_sorted; [| by apply IH].
  by rewrite order_by_Permutation.
Qed.

(** Rows scanned in key order come back as they were scanned. *)
Lemma order_by_already_sorted (l : list A) :
  StronglySorted (λ a b, key a ≤ key b) l → order_by key l = l.
Proof.
  induction l as [|x l IH]; simpl; intros Hs; [done |].
  apply StronglySorted_cons in Hs as [Hx Hs]. fold (order_by key l).
  rewrite IH by done. destruct l as [|y l]; [done |]. simpl.
  apply Forall_cons in Hx as [Hxy _].
  by apply Z.leb_le in Hxy as ->.
Qed.
End order_by.

(** ** The triggers keep the log consistent with the table *)

Lemma consistent_create_database : consistent create_database.
Proof.
  split; simpl.
  - constructor.
  - constructor.
  - intros id row. by rewrite lookup_empty.
Qed.

(** A table [m'] whose rows other than [task_id h] are those of [db],
    followed by the logging of [h], the new state of that task, is
    consistent again. *)
Lemma consistent_logged db (m' : gmap Z task) (h : history) :
  consistent db →
  history_id h = new_rowid (history_id <$> tasks_history db) →
  is_Some (h_title h) →
  (∀ id row, m' !! id = Some row →
     (id = task_id h ∧ history_snapshot h = task_snapshot row ∧
      operation h ≠ DELETE) ∨
     (id ≠ task_id h ∧ tasks db !! id = Some row)) →
  consistent {| tasks := m'; tasks_history := tasks_history db ++ [h] |}.
Proof.
  intros [Hids Httl Hlog] Hid Hs Hm'. split; simpl.
  - apply StronglySorted_app_2; [| done | repeat constructor].
    intros a b Ha ->%list_elem_of_singleton. rewrite Hid.
    apply new_rowid_above, list_elem_of_fmap. eauto.
  - apply Forall_app. split; [done |]. by repeat constructor.
  - intros id row Hrow. rewrite filter_app, last_app.
    destruct (Hm' id row Hrow) as [(-> & Hsnap & Ho) | (Hne & Hold)].
    + rewrite filter_cons_True by done. simpl. eauto.
    + rewrite filter_cons_False by congruence. simpl. eauto.
Qed.

(** ** What each function does to the connection *)


Lemma add_task_text conn now t dsc st pr :
  let id := new_rowid (elements (dom (tasks (working conn)))) in
  let NEW := Task t dsc st pr now now in
  add_task conn now (Some t) dsc st pr
  = Reply (commit (execute conn (written (working conn) id (Some NEW) NEW INSERT now)))
          [Task_added_successfully id] (Returned id).
Proof.
  intros id NEW. subst id NEW. unfold add_task, insert_into_tasks. simpl.
  by rewrite new_rowid_unused.
Qed.

Lemma fits_held (held : Prop) `{!Decision held} (z : Z) :
  held → fits held z = true.
Proof.
  intros H. unfold fits. rewrite (bool_decide_eq_true_2 _ H).
  apply orb_true_r.
Qed.

Lemma fits_not_held (held : Prop) `{!Decision held} (z : Z) :
  ¬ held → fits held z = in_int64 z.
Proof.
  intros H. unfold fits. rewrite (bool_decide_eq_false_2 _ H).
  apply orb_false_r.
Qed.

Lemma update_task_absent conn now id ttl dsc st pr :
  tasks (working conn) !! id = None →
  update_task conn now id ttl dsc st pr
  = if in_int64 id
    then Reply conn [No_task_found_with_ID id] (Returned false)
    else Reply conn [] (Raised OverflowError).
Proof.
  intros H. unfold update_task, select_id_from_tasks_where_id.
  rewrite fits_not_held by (rewrite H; by intros [? ?]).
  rewrite H. by destruct (in_int64 id).
Qed.

Lemma update_task_nothing conn now id OLD :
  tasks (working conn) !! id = Some OLD →
  update_task conn now id None None None None
  = Reply conn [No_updates_provided] (Returned false).
Proof.
  intros H. unfold update_task, select_id_from_tasks_where_id.
  rewrite fits_held by eauto. by rewrite H.
Qed.

Lemma update_task_applied conn now id ttl dsc st pr OLD :
  tasks (working conn) !! id = Some OLD →
  (ttl, dsc, st, pr) ≠ (None, None, None, None) →
  let NEW := Task (default (title OLD) ttl)
                  (supplied dsc (description OLD))
                  (supplied st (status OLD))
                  (supplied pr (priority OLD))
                  (created_at OLD) now in
  update_task conn now id ttl dsc st pr
  = Reply (commit (execute conn (written (working conn) id (Some NEW) NEW UPDATE now)))
          [Task_updated_successfully id] (Returned true).
Proof.
  intros H Hsome NEW.
  unfold update_task, select_id_from_tasks_where_id.
  rewrite fits_held by eauto. rewrite H.
  destruct OLD as [t0 d0 s0 p0 c0 u0].
  destruct ttl, dsc, st, pr; try done;
    simpl; unfold update_tasks_where_id; rewrite H; reflexivity.
Qed.

Lemma delete_task_absent conn now id :
  tasks (working conn) !! id = None →
  delete_task conn now id
  = if in_int64 id
    then Reply conn [No_task_found_with_ID id] (Returned false)
    else Reply conn [] (Raised OverflowError).
Proof.
  intros H. unfold delete_task, select_id_from_tasks_where_id.
  rewrite fits_not_held by (rewrite H; by intros [? ?]).
  rewrite H. by destruct (in_int64 id).
Qed.

Lemma delete_task_present conn now id OLD :
  tasks (working conn) !! id = Some OLD →
  delete_task conn now id
  = Reply (commit (execute conn (written (working conn) id None OLD DELETE now)))
          [Task_deleted_successfully id] (Returned true).
Proof.
  intros H. unfold delete_task, select_id_from_tasks_where_id,
    delete_from_tasks_where_id. rewrite fits_held by eauto. by rewrite H.
Qed.

(** The key [history_id] finds its own row once rowids ascend. *)
Lemma select_history_by_id db h0 :
  StronglySorted (λ a b, history_id a < history_id b) (tasks_history db) →
  h0 ∈ tasks_history db →
  select_from_tasks_history_where_history_id (history_id h0) db = Some h0.
Proof.
  unfold select_from_tasks_history_where_history_id.
  induction (tasks_history db) as [|x l IH]; intros Hs Hin.
  - by apply elem_of_nil in Hin.
  - apply StronglySorted_cons in Hs as [Hx Hs].
    apply elem_of_cons in Hin as [-> | Hin].
    + by rewrite filter_cons_True.
    + rewrite Forall_forall in Hx. specialize (Hx _ Hin). simpl in Hx.
      rewrite filter_cons_False by lia. by apply IH.
Qed.

Lemma select_history_no_such_id db hid :
  (∀ h, h ∈ tasks_history db → history_id h ≠ hid) →
  select_from_tasks_history_where_history_id hid db = None.
Proof.
  unfold select_from_tasks_history_where_history_id. intros H.
  destruct (filter _ _) as [|h l] eqn:E; [done |].
  assert (h ∈ filter (λ h, history_id h = hid) (tasks_history db)) as Hin
    by (rewrite E; left).
  apply list_elem_of_filter in Hin as [Hid Hin]. by destruct (H h Hin).
Qed.

(** The lookup by [history_id] finds a row exactly when the column holds
    the id. *)
Lemma select_history_held db hid :
  is_Some (select_from_tasks_history_where_history_id hid db) ↔
  hid ∈ history_id <$> tasks_history db.
Proof.
  unfold select_from_tasks_history_where_history_id. split.
  - intros [h Hh]. apply head_Some_elem_of, list_elem_of_filter in Hh as [<- Hin].
    apply list_elem_of_fmap. eauto.
  - intros (h & -> & Hin)%list_elem_of_fmap.
    destruct (filter _ _) as [|x l] eqn:E; [| by eexists].
    assert (h ∈ filter (λ h', history_id h' = history_id h) (tasks_history db))
      as Hf by by apply list_elem_of_filter.
    rewrite E in Hf. by apply elem_of_nil in Hf.
Qed.

Lemma restore_task_version_no_record conn now hid :
  select_from_tasks_history_where_history_id hid (working conn) = None →
  restore_task_version conn now hid
  = if in_int64 hid
    then Reply conn [No_history_record_found_with_ID hid] (Returned false)
    else Reply conn [] (Raised OverflowError).
Proof.
  intros H. unfold restore_task_version. rewrite fits_not_held.
  - rewrite H. by destruct (in_int64 hid).
  - intros Hheld%select_history_held. rewrite H in Hheld. by destruct Hheld.
Qed.

Lemma restore_task_version_fits conn hid h0 :
  select_from_tasks_history_where_history_id hid (working conn) = Some h0 →
  fits (hid ∈ history_id <$> tasks_history (working conn)) hid = true.
Proof. intros H. apply fits_held, select_history_held. eauto. Qed.

Lemma restore_task_version_recreates conn now hid h0 t :
  select_from_tasks_history_where_history_id hid (working conn) = Some h0 →
  h_title h0 = Some t →
  tasks (working conn) !! task_id h0 = None →
  let NEW := Task t (h_description h0) (h_status h0) (h_priority h0) now now in
  restore_task_version conn now hid
  = Reply (commit (execute conn
             (written (working conn) (task_id h0) (Some NEW) NEW INSERT now)))
          [Task_restored_to_version (task_id h0) hid] (Returned true).
Proof.
  intros H Ht Habs NEW. unfold restore_task_version.
  rewrite (restore_task_version_fits _ _ _ H). simpl negb. cbv iota. rewrite H.
  unfold history_snapshot, select_id_from_tasks_where_id, insert_into_tasks.
  rewrite Ht, Habs. simpl. by rewrite Habs.
Qed.

Lemma restore_task_version_overwrites conn now hid h0 t OLD :
  select_from_tasks_history_where_history_id hid (working conn) = Some h0 →
  h_title h0 = Some t →
  tasks (working conn) !! task_id h0 = Some OLD →
  let NEW := Task t (h_description h0) (h_status h0) (h_priority h0)
                  (created_at OLD) now in
  restore_task_version conn now hid
  = Reply (commit (execute conn
             (written (working conn) (task_id h0) (Some NEW) NEW UPDATE now)))
          [Task_restored_to_version (task_id h0) hid] (Returned true).
Proof.
  intros H Ht Hold NEW. unfold restore_task_version.
  rewrite (restore_task_version_fits _ _ _ H). simpl negb. cbv iota. rewrite H.
  unfold history_snapshot, select_id_from_tasks_where_id,
    update_tasks_where_id.
  rewrite Ht, Hold. destruct OLD. reflexivity.
Qed.

Lemma restore_task_version_NULL_title conn now hid h0 :
  select_from_tasks_history_where_history_id hid (working conn) = Some h0 →
  h_title h0 = None →
  restore_task_version conn now hid
  = Reply conn [] (Raised (IntegrityError NOT_NULL_tasks_title)).
Proof.
  intros H Ht. unfold restore_task_version.
  rewrite (restore_task_version_fits _ _ _ H). simpl negb. cbv iota. rewrite H.
  unfold history_snapshot, select_id_from_tasks_where_id, insert_into_tasks,
    update_tasks_where_id.
  rewrite Ht. destruct (tasks (working conn) !! task_id h0) as [[]|]; reflexivity.
Qed.

(** ** Sessions keep the connection synced and the database consistent *)

Lemma written_consistent db id NEW row o now :
  consistent db →
  (NEW = Some row ∧ o ≠ DELETE) ∨ NEW = None →
  consistent (written db id NEW row o now).
Proof.
  intros Hdb HNEW.
  apply (consistent_logged db _ (logged_record db id row o now));
    simpl; try done.
  intros id' row'. destruct HNEW as [[-> Ho] | ->].
  - rewrite lookup_insert. case_decide as Hid.
    + intros [= <-]. left. by subst.
    + intros Hrow. right. split; [congruence | done].
  - rewrite lookup_delete. case_decide as Hid; [done |].
    intros Hrow. right. split; [congruence | done].
Qed.

Lemma print_each_outcome {A} (formats : A → bool) (rows : list A) :
  (print_each formats rows = (rows, Returned ()) ∧
   Forall (λ r, formats r = true) rows) ∨
  (∃ before r after,
     rows = before ++ r :: after ∧
     Forall (λ r, formats r = true) before ∧ formats r = false ∧
     print_each formats rows = (before, Raised TypeError)).
Proof.
  induction rows as [|r rows IH]; simpl; [left; by split |].
  destruct (formats r) eqn:E.
  - destruct IH as [[-> Hall] | (before & r' & after & -> & Hb & Hr & ->)].
    + left. split; [done | by constructor].
    + right. exists (r :: before), r', after. repeat split; [by constructor | done].
  - right. by exists [], r, rows.
Qed.

Lemma list_tasks_conn conn filter_status :
  conn_after (list_tasks conn filter_status) = conn.
Proof.
  unfold list_tasks. destruct (select_from_tasks _ _) as [|r rows]; [done |].
  by destruct (print_each task_formats (r :: rows)).
Qed.

(** A command either leaves the connection alone or commits one write of
    one row together with the record its trigger logs. *)
Lemma exec_cases conn now c :
  exec conn now c = conn ∨
  ∃ id NEW row o,
    exec conn now c
    = commit (execute conn (written (working conn) id NEW row o now)) ∧
    ((NEW = Some row ∧ o ≠ DELETE) ∨ NEW = None).
Proof.
  destruct c as [ttl dsc st pr | id ttl dsc st pr | id | id | f | tid | hid];
    simpl.
  - destruct ttl as [t|]; [| by left].
    rewrite add_task_text. right. do 4 eexists. split; [done |]. by left.
  - destruct (tasks (working conn) !! id) as [OLD|] eqn:E.
    + destruct (decide ((ttl, dsc, st, pr) = (None, None, None, None)))
        as [[= -> -> -> ->] | Hsome].
      * erewrite update_task_nothing by done. by left.
      * erewrite update_task_applied by done.
        right. do 4 eexists. split; [done |]. by left.
    + rewrite update_task_absent by done. left. by destruct (in_int64 id).
  - unfold complete_task.
    destruct (tasks (working conn) !! id) as [OLD|] eqn:E.
    + erewrite update_task_applied by done.
      right. do 4 eexists. split; [done |]. by left.
    + rewrite update_task_absent by done. left. by destruct (in_int64 id).
  - destruct (tasks (working conn) !! id) as [OLD|] eqn:E.
    + erewrite delete_task_present by done.
      right. do 4 eexists. split; [done |]. by right.
    + rewrite delete_task_absent by done. left. by destruct (in_int64 id).
  - left. apply list_tasks_conn.
  - by left.
  - destruct (select_from_tasks_history_where_history_id hid (working conn))
      as [h0|] eqn:E.
    + destruct (h_title h0) as [t|] eqn:Et.
      * destruct (tasks (working conn) !! task_id h0) as [OLD|] eqn:Ek.
        -- erewrite restore_task_version_overwrites by done.
           right. do 4 eexists. split; [done |]. by left.
        -- erewrite restore_task_version_recreates by done.
           right. do 4 eexists. split; [done |]. by left.
      * erewrite restore_task_version_NULL_title by done. by left.
    + rewrite restore_task_version_no_record by done.
      left. by destruct (in_int64 hid).
Qed.

Lemma exec_invariant conn now c :
  synced conn → consistent (committed conn) →
  synced (exec conn now c) ∧ consistent (committed (exec conn now c)).
Proof.
  intros Hs Hc.
  destruct (exec_cases conn now c) as [-> | (id & NEW & row & o & -> & H)];
    [done |].
  split; [done |]. simpl. rewrite Hs. by apply written_consistent.
Qed.

Lemma run_snoc session now c :
  run (session ++ [(now, c)]) = exec (run session) now c.
Proof. unfold run. by rewrite foldl_snoc. Qed.

Lemma run_invariant session :
  synced (run session) ∧ consistent (committed (run session)).
Proof.
  induction session as [|[now c] session [IHs IHc]] using rev_ind.
  - split; [done | apply consistent_create_database].
  - rewrite run_snoc. by apply exec_invariant.
Qed.

(** A command appends at most one record, stamped with its clock reading. *)
Lemma exec_history_log conn now c :
  synced conn →
  history_log (exec conn now c) = history_log conn ∨
  ∃ h, history_log (exec conn now c) = history_log conn ++ [h] ∧
       changed_at h = now.
Proof.
  intros Hs.
  destruct (exec_cases conn now c) as [-> | (id & NEW & row & o & -> & _)];
    [by left |].
  right. exists (logged_record (working conn) id row o now).
  unfold history_log. rewrite <- Hs. by split.
Qed.

Lemma committed_write_log conn id NEW row o now :
  synced conn →
  history_log (commit (execute conn (written (working conn) id NEW row o now)))
  = history_log conn ++ [logged_record (committed conn) id row o now].
Proof. intros Hs. unfold history_log. by rewrite <- Hs. Qed.

Lemma committed_write_store conn id NEW row o now :
  synced conn →
  entity_store (commit (execute conn (written (working conn) id NEW row o now)))
  = match NEW with
    | Some row' => <[id := row']> (entity_store conn)
    | None => delete id (entity_store conn)
    end.
Proof. intros Hs. unfold entity_store. by rewrite <- Hs. Qed.

(** ** C1: every successful mutation appends exactly one matching record *)

(** C1.  In every state a session can reach, a successful [add_task],
    [update_task] or [delete_task] commits, together with the change of the
    task, exactly one new history record at the end of the log; the record
    carries the id of the task, the title, description, status and priority
    of the task as stored after the call (for a delete: as stored before
    it), and the tag INSERT, UPDATE or DELETE respectively.  Nothing is left uncommitted. *)
Theorem append_on_mutate (session : list (timestamp * command)) (now : timestamp) :
  (∀ ttl dsc st pr id,
     result (add_task (run session) now ttl dsc st pr) = Returned id →
     let conn' := conn_after (add_task (run session) now ttl dsc st pr) in
     ∃ row h,
       history_log conn' = history_log (run session) ++ [h] ∧
       get conn' id = Some row ∧
       h_title h = Some (title row) ∧
       h_description h = description row ∧
       h_status h = status row ∧
       h_priority h = priority row ∧
       task_id h = id ∧ operation h = INSERT ∧ synced conn') ∧
  (∀ id ttl dsc st pr,
     result (update_task (run session) now id ttl dsc st pr) = Returned true →
     let conn' := conn_after (update_task (run session) now id ttl dsc st pr) in
     ∃ row h,
       history_log conn' = history_log (run session) ++ [h] ∧
       get conn' id = Some row ∧
       h_title h = Some (title row) ∧
       h_description h = description row ∧
       h_status h = status row ∧
       h_priority h = priority row ∧
       task_id h = id ∧ operation h = UPDATE ∧ synced conn') ∧
  (∀ id,
     result (delete_task (run session) now id) = Returned true →
     let conn' := conn_after (delete_task (run session) now id) in
     ∃ row h,
       history_log conn' = history_log (run session) ++ [h] ∧
       get (run session) id = Some row ∧ get conn' id = None ∧
       h_title h = Some (title row) ∧
       h_description h = description row ∧
       h_status h = status row ∧
       h_priority h = priority row ∧
       task_id h = id ∧ operation h = DELETE ∧ synced conn').
Proof.
  destruct (run_invariant session) as [Hs _].
  set (conn := run session) in *. repeat split.
  - intros ttl dsc st pr id. destruct ttl as [t|]; [| done].
    rewrite add_task_text. simpl. intros [= <-].
    eexists _, _. rewrite committed_write_log by done.
    split; [done |]. unfold get. rewrite committed_write_store by done.
    by rewrite lookup_insert_eq.
  - intros id ttl dsc st pr.
    destruct (tasks (working conn) !! id) as [OLD|] eqn:E.
    + destruct (decide ((ttl, dsc, st, pr) = (None, None, None, None)))
        as [[= -> -> -> ->] | Hsome].
      * by erewrite update_task_nothing.
      * erewrite update_task_applied by done. simpl. intros _.
        eexists _, _. rewrite committed_write_log by done.
        split; [done |]. unfold get. rewrite committed_write_store by done.
        by rewrite lookup_insert_eq.
    + rewrite update_task_absent by done. by destruct (in_int64 id).
  - intros id.
    destruct (tasks (working conn) !! id) as [OLD|] eqn:E.
    + erewrite delete_task_present by done. simpl. intros _.
      exists OLD. eexists. rewrite committed_write_log by done.
      split; [done |]. unfold get. rewrite committed_write_store by done.
      rewrite lookup_delete_eq. unfold entity_store. rewrite <- Hs. done.
    + rewrite delete_task_absent by done. by destruct (in_int64 id).
Qed.

Lemma append_on_mutate_witness :
  let conn := run [(10, Add (Some "A"%string) None None None)] in
  (∃ row h,
     history_log (conn_after (add_task conn 11 (Some "B"%string) None None None))
     = history_log conn ++ [h] ∧
     get (conn_after (add_task conn 11 (Some "B"%string) None None None)) 2
     = Some row ∧
     h_title h = Some (title row) ∧
     h_description h = description row ∧
     h_status h = status row ∧
     h_priority h = priority row ∧
     task_id h = 2 ∧ operation h = INSERT ∧
     synced (conn_after (add_task conn 11 (Some "B"%string) None None None))) ∧
  (∃ row h,
     history_log (conn_after (update_task conn 11 1 (Some "B"%string) None None None))
     = history_log conn ++ [h] ∧
     get (conn_after (update_task conn 11 1 (Some "B"%string) None None None)) 1
     = Some row ∧
     h_title h = Some (title row) ∧
     h_description h = description row ∧
     h_status h = status row ∧
     h_priority h = priority row ∧
     task_id h = 1 ∧ operation h = UPDATE ∧
     synced (conn_after (update_task conn 11 1 (Some "B"%string) None None None))) ∧
  (∃ row h,
     history_log (conn_after (delete_task conn 11 1)) = history_log conn ++ [h] ∧
     get conn 1 = Some row ∧ get (conn_after (delete_task conn 11 1)) 1 = None ∧
     h_title h = Some (title row) ∧
     h_description h = description row ∧
     h_status h = status row ∧
     h_priority h = priority row ∧
     task_id h = 1 ∧ operation h = DELETE ∧
     synced (conn_after (delete_task conn 11 1))).
Proof.
  pose proof (append_on_mutate [(10, Add (Some "A"%string) None None None)] 11)
    as (Hadd & Hupdate & Hdelete).
  split; [| split].
  - apply (Hadd (Some "B"%string) None None None 2). vm_compute. reflexivity.
  - apply (Hupdate 1 (Some "B"%string) None None None). vm_compute. reflexivity.
  - apply (Hdelete 1). vm_compute. reflexivity.
Defined.

(** ** C2: the store agrees with the latest record of each task *)

Lemma StronglySorted_filter {A} (R : relation A) (P : A → Prop)
    `{∀ x, Decision (P x)} (l : list A) :
  StronglySorted R l → StronglySorted R (filter P l).
Proof.
  induction 1 as [|x l Hs IH Hx]; [constructor |].
  rewrite filter_cons. destruct (decide (P x)); [| done].
  constructor; [done |].
  rewrite Forall_forall in Hx |- *.
  intros y [_ Hy]%list_elem_of_filter. auto.
Qed.

(** Along a table with ascending rowids the last record of a task is the
    one with the highest [history_id]. *)
Lemma last_record_most_recent (log : list history) (id : Z) (h : history) :
  StronglySorted (λ a b, history_id a < history_id b) log →
  last (filter (λ h, task_id h = id) log) = Some h →
  most_recent log id h.
Proof.
  intros Hs Hlast.
  apply (StronglySorted_filter _ (λ h, task_id h = id)) in Hs.
  assert (h ∈ filter (λ h, task_id h = id) log) as Hin
    by by apply last_Some_elem_of.
  apply list_elem_of_filter in Hin as [Hid Hin].
  split; [done |]. split; [done |]. intros h' Hin' Hid'.
  assert (h' ∈ filter (λ h, task_id h = id) log) as Hf
    by by apply list_elem_of_filter.
  apply last_Some in Hlast as [l' Hl']. rewrite Hl' in Hs, Hf.
  apply elem_of_app in Hf as [Hf | ->%list_elem_of_singleton]; [| lia].
  apply StronglySorted_app_1_elem_of with (x1 := h') (x2 := h) in Hs;
    [simpl in Hs; lia | done | by apply list_elem_of_singleton].
Qed.

(** C2.  After any session of add, edit, complete, delete, list, history
    and restore commands, every task present in the entity store has its
    title, description, status and priority equal to the snapshot of the
    record with the highest [history_id] among the records of that task, and
    that record is not a DELETE record. *)
Theorem store_matches_latest_record
    (session : list (timestamp * command)) (id : Z) (row : task) :
  get (run session) id = Some row →
  ∃ h, most_recent (history_log (run session)) id h ∧
       h_title h = Some (title row) ∧
       h_description h = description row ∧
       h_status h = status row ∧
       h_priority h = priority row ∧
       operation h ≠ DELETE.
Proof.
  destruct (run_invariant session) as [_ [Hids _ Hlog]]. intros Hrow.
  destruct (Hlog id row Hrow) as (h & Hlast & Hsnap & Hop).
  exists h. split; [by apply last_record_most_recent |].
  by injection Hsnap as -> -> -> ->.
Qed.

Lemma store_matches_latest_record_witness :
  ∃ h, most_recent
         (history_log (run [(10, Add (Some "A"%string) None None None);
                            (11, Complete 1); (12, Delete 1); (13, Restore 1)]))
         1 h ∧
       h_title h = Some "A"%string ∧
       h_description h = None ∧
       h_status h = None ∧
       h_priority h = None ∧
       operation h ≠ DELETE.
Proof.
  apply (store_matches_latest_record
           [(10, Add (Some "A"%string) None None None);
            (11, Complete 1); (12, Delete 1); (13, Restore 1)]
           1 (Task "A" None None None 13 13)).
  vm_compute. reflexivity.
Defined.

(** ** C3: [add_task] and the title *)



(** ** C7: the outcomes of [update_task] *)




(** ** C9: restoring from a history id that does not exist *)

(** C9, as the code has it.  In every reachable state,
    [restore_task_version] on a [history_id] that no record of the log
    carries leaves the connection, and with it the entity store and the
    history log, unchanged: when the id fits 64 bits it returns [False]
    after reporting that no such record was found; when it does not, it
    raises [OverflowError] at the SELECT and prints nothing. *)
Theorem restore_unknown_history_id
    (session : list (timestamp * command)) (now : timestamp) (hid : Z) :
  (∀ h, h ∈ history_log (run session) → history_id h ≠ hid) →
  let r := restore_task_version (run session) now hid in
  (in_int64 hid = true →
   result r = Returned false ∧
   printed r = [No_history_record_found_with_ID hid]) ∧
  (in_int64 hid = false →
   result r = Raised OverflowError ∧ printed r = []) ∧
  conn_after r = run session ∧
  entity_store (conn_after r) = entity_store (run session) ∧
  history_log (conn_after r) = history_log (run session).
Proof.
  destruct (run_invariant session) as [Hs _]. intros Hnone r. subst r.
  rewrite restore_task_version_no_record
    by (apply select_history_no_such_id; by rewrite Hs).
  by destruct (in_int64 hid).
Qed.

Lemma restore_unknown_history_id_witness :
  let conn := run [(10, Add (Some "A"%string) None None None)] in
  (result (restore_task_version conn 11 7) = Returned false ∧
   printed (restore_task_version conn 11 7)
   = [No_history_record_found_with_ID 7]) ∧
  (result (restore_task_version conn 11 (- 2 ^ 63 - 1)) = Raised OverflowError ∧
   printed (restore_task_version conn 11 (- 2 ^ 63 - 1)) = []) ∧
  conn_after (restore_task_version conn 11 7) = conn.
Proof.
  assert (∀ hid, hid ≠ 1 →
    ∀ h, h ∈ history_log (run [(10, Add (Some "A"%string) None None None)]) →
         history_id h ≠ hid) as Hnone.
  { intros hid Hne h Hin. vm_compute in Hin.
    apply list_elem_of_singleton in Hin as ->. simpl. congruence. }
  assert (7 ≠ 1) as H7 by lia.
  assert (- 2 ^ 63 - 1 ≠ 1) as Hlow by lia.
  pose proof (restore_unknown_history_id
                [(10, Add (Some "A"%string) None None None)] 11 7
                (Hnone 7 H7)) as (H1 & _ & H3 & _).
  pose proof (restore_unknown_history_id
                [(10, Add (Some "A"%string) None None None)] 11 (- 2 ^ 63 - 1)
                (Hnone _ Hlow)) as (_ & H2 & _).
  split; [by apply H1 |]. split; [by apply H2 | exact H3].
Defined.

(** C9 fails as stated: no record has the history id -2^63-1, yet the call
    does not report that no record was found and return [False]; it raises
    [OverflowError]. *)
Lemma restore_task_version_raises_OverflowError :
  history_log initialize_task_manager = [] ∧
  restore_task_version initialize_task_manager 10 (- 2 ^ 63 - 1)
  = Reply initialize_task_manager [] (Raised OverflowError).
Proof. vm_compute. done. Qed.

(** ** C4, C5, C10: [restore_task_version] on a record of the log *)

(** In a reachable state the lookup by [history_id] returns the record
    itself, and its title is a text. *)
Lemma run_select_history session h0 :
  h0 ∈ history_log (run session) →
  select_from_tasks_history_where_history_id (history_id h0)
    (working (run session)) = Some h0 ∧
  ∃ t, h_title h0 = Some t.
Proof.
  destruct (run_invariant session) as [Hs [Hids Httl _]]. intros Hin.
  unfold history_log in Hin. rewrite Hs. split.
  - by apply select_history_by_id.
  - rewrite Forall_forall in Httl. by apply Httl.
Qed.

(** C4.  In every reachable state, for every record [h0] of the log whose
    task is not in the entity store, [restore_task_version] on
    [history_id h0] returns [True] and inserts, under the id [task_id h0]
    and next to the untouched other tasks, a task whose title, description,
    status and priority are those of [h0] and whose [created_at] and
    [updated_at] are the current time; it appends one record for that task
    with the same four fields; afterwards [get (task_id h0)] finds the
    task. *)
Theorem restore_recreates_absent_task
    (session : list (timestamp * command)) (now : timestamp) (h0 : history) :
  h0 ∈ history_log (run session) →
  get (run session) (task_id h0) = None →
  let r := restore_task_version (run session) now (history_id h0) in
  result r = Returned true ∧
  ∃ row h,
    entity_store (conn_after r)
      = <[task_id h0 := row]> (entity_store (run session)) ∧
    get (conn_after r) (task_id h0) = Some row ∧
    Some (title row) = h_title h0 ∧
    description row = h_description h0 ∧
    status row = h_status h0 ∧
    priority row = h_priority h0 ∧
    created_at row = now ∧ updated_at row = now ∧
    history_log (conn_after r) = history_log (run session) ++ [h] ∧
    task_id h = task_id h0 ∧
    h_title h = h_title h0 ∧
    h_description h = h_description h0 ∧
    h_status h = h_status h0 ∧
    h_priority h = h_priority h0 ∧
    changed_at h = now.
Proof.
  destruct (run_invariant session) as [Hs _]. intros Hin Habs r. subst r.
  destruct (run_select_history session h0 Hin) as [Hsel [t Ht]].
  unfold get, entity_store in Habs. rewrite <- Hs in Habs.
  erewrite restore_task_version_recreates by done. simpl.
  split; [done |]. eexists _, _.
  unfold get. rewrite committed_write_store, committed_write_log by done.
  rewrite lookup_insert_eq. simpl. rewrite Ht. done.
Qed.

Lemma restore_recreates_absent_task_witness :
  let session := [(10, Add (Some "A"%string) None None None); (11, Delete 1)] in
  let h0 := History 1 1 (Some "A"%string) None None None INSERT 10 in
  let r := restore_task_version (run session) 12 1 in
  result r = Returned true ∧
  ∃ row h,
    entity_store (conn_after r) = <[1 := row]> (entity_store (run session)) ∧
    get (conn_after r) 1 = Some row ∧
    Some (title row) = h_title h0 ∧
    description row = h_description h0 ∧
    status row = h_status h0 ∧
    priority row = h_priority h0 ∧
    created_at row = 12 ∧ updated_at row = 12 ∧
    history_log (conn_after r) = history_log (run session) ++ [h] ∧
    task_id h = 1 ∧
    h_title h = h_title h0 ∧
    h_description h = h_description h0 ∧
    h_status h = h_status h0 ∧
    h_priority h = h_priority h0 ∧
    changed_at h = 12.
Proof.
  apply (restore_recreates_absent_task
           [(10, Add (Some "A"%string) None None None); (11, Delete 1)] 12
           (History 1 1 (Some "A"%string) None None None INSERT 10)).
  - vm_compute. left.
  - vm_compute. reflexivity.
Defined.

(** C5.  In every reachable state, for every record [h0] of the log whose
    task is in the entity store, [restore_task_version] on [history_id h0]
    returns [True], replaces title, description, status and priority of
    that task by those of [h0], sets its [updated_at] to the current time,
    keeps its [created_at] and all other tasks, and appends exactly one
    record, tagged UPDATE and holding the same four fields, behind an
    unchanged log. *)
Theorem restore_overwrites_live_task
    (session : list (timestamp * command)) (now : timestamp)
    (h0 : history) (OLD : task) :
  h0 ∈ history_log (run session) →
  get (run session) (task_id h0) = Some OLD →
  let r := restore_task_version (run session) now (history_id h0) in
  result r = Returned true ∧
  ∃ row h,
    entity_store (conn_after r)
      = <[task_id h0 := row]> (entity_store (run session)) ∧
    Some (title row) = h_title h0 ∧
    description row = h_description h0 ∧
    status row = h_status h0 ∧
    priority row = h_priority h0 ∧
    updated_at row = now ∧ created_at row = created_at OLD ∧
    history_log (conn_after r) = history_log (run session) ++ [h] ∧
    length (history_log (conn_after r))
      = S (length (history_log (run session))) ∧
    task_id h = task_id h0 ∧ operation h = UPDATE ∧
    h_title h = h_title h0 ∧
    h_description h = h_description h0 ∧
    h_status h = h_status h0 ∧
    h_priority h = h_priority h0 ∧
    changed_at h = now.
Proof.
  destruct (run_invariant session) as [Hs _]. intros Hin Hold r. subst r.
  destruct (run_select_history session h0 Hin) as [Hsel [t Ht]].
  unfold get, entity_store in Hold. rewrite <- Hs in Hold.
  erewrite restore_task_version_overwrites by done. simpl.
  split; [done |]. eexists _, _.
  rewrite committed_write_store, committed_write_log by done.
  rewrite length_app, Nat.add_1_r. simpl. rewrite Ht. done.
Qed.

Lemma restore_overwrites_live_task_witness :
  let session := [(10, Add (Some "A"%string) None None None);
                  (11, Edit 1 (Some "B"%string) None None None)] in
  let h0 := History 1 1 (Some "A"%string) None None None INSERT 10 in
  let r := restore_task_version (run session) 12 1 in
  result r = Returned true ∧
  ∃ row h,
    entity_store (conn_after r) = <[1 := row]> (entity_store (run session)) ∧
    Some (title row) = h_title h0 ∧
    description row = h_description h0 ∧
    status row = h_status h0 ∧
    priority row = h_priority h0 ∧
    updated_at row = 12 ∧
    created_at row = created_at (Task "B" None None None 10 11) ∧
    history_log (conn_after r) = history_log (run session) ++ [h] ∧
    length (history_log (conn_after r))
      = S (length (history_log (run session))) ∧
    task_id h = 1 ∧ operation h = UPDATE ∧
    h_title h = h_title h0 ∧
    h_description h = h_description h0 ∧
    h_status h = h_status h0 ∧
    h_priority h = h_priority h0 ∧
    changed_at h = 12.
Proof.
  apply (restore_overwrites_live_task
           [(10, Add (Some "A"%string) None None None);
            (11, Edit 1 (Some "B"%string) None None None)] 12
           (History 1 1 (Some "A"%string) None None None INSERT 10)
           (Task "B" None None None 10 11)).
  - vm_compute. left.
  - vm_compute. reflexivity.
Defined.

(** C10.  In every reachable state, when [restore_task_version] is given
    the [history_id] of a record whose task is not in the entity store, the
    one record it appends while recreating the task is tagged INSERT. *)
Theorem recreation_is_logged_as_INSERT
    (session : list (timestamp * command)) (now : timestamp) (h0 : history) :
  h0 ∈ history_log (run session) →
  get (run session) (task_id h0) = None →
  let r := restore_task_version (run session) now (history_id h0) in
  ∃ h, history_log (conn_after r) = history_log (run session) ++ [h] ∧
       task_id h = task_id h0 ∧
       operation h = INSERT ∧ operation h ≠ UPDATE.
Proof.
  destruct (run_invariant session) as [Hs _]. intros Hin Habs r. subst r.
  destruct (run_select_history session h0 Hin) as [Hsel [t Ht]].
  unfold get, entity_store in Habs. rewrite <- Hs in Habs.
  erewrite restore_task_version_recreates by done. simpl.
  rewrite committed_write_log by done. eexists. by split.
Qed.

Lemma recreation_is_logged_as_INSERT_witness :
  let session := [(10, Add (Some "A"%string) None None None);
                  (11, Complete 1); (12, Delete 1)] in
  let r := restore_task_version (run session) 13 2 in
  ∃ h, history_log (conn_after r) = history_log (run session) ++ [h] ∧
       task_id h = 1 ∧
       operation h = INSERT ∧ operation h ≠ UPDATE.
Proof.
  apply (recreation_is_logged_as_INSERT
           [(10, Add (Some "A"%string) None None None);
            (11, Complete 1); (12, Delete 1)] 13
           (History 2 1 (Some "A"%string) None (Some "completed"%string) None
                    UPDATE 11)).
  - vm_compute. right. left.
  - vm_compute. reflexivity.
Defined.

(** ** C6: the log only grows *)

Lemma run_history_log_app session more :
  ∃ appended,
    history_log (run (session ++ more))
    = history_log (run session) ++ appended.
Proof.
  induction more as [|[now c] more [appended IH]] using rev_ind.
  - exists []. by rewrite !app_nil_r.
  - rewrite app_assoc, run_snoc.
    destruct (run_invariant (session ++ more)) as [Hs _].
    destruct (exec_history_log (run (session ++ more)) now c Hs)
      as [-> | (h & -> & _)].
    + eauto.
    + exists (appended ++ [h]). by rewrite IH, app_assoc.
Qed.

(** C6.  Whatever commands (add, edit, complete, delete, list, history,
    restore) follow a session, the history log afterwards is the log before
    with records appended behind it: every record keeps its position and
    its contents, none disappears, and the length never decreases.  In
    particular a command that deletes a task keeps all records of the task
    and adds one. *)
Theorem history_log_only_grows
    (session more : list (timestamp * command)) :
  history_log (run session) `prefix_of` history_log (run (session ++ more)) ∧
  (∀ i h, history_log (run session) !! i = Some h →
          history_log (run (session ++ more)) !! i = Some h) ∧
  (length (history_log (run session))
   ≤ length (history_log (run (session ++ more))))%nat ∧
  (∀ now id, is_Some (get (run session) id) →
     ∃ h, history_log (conn_after (delete_task (run session) now id))
          = history_log (run session) ++ [h]).
Proof.
  destruct (run_history_log_app session more) as [appended ->].
  split; [by eexists |]. split; [| split].
  - intros i h Hi. by apply lookup_app_l_Some.
  - rewrite length_app. lia.
  - destruct (run_invariant session) as [Hs _]. intros now id [OLD HOLD].
    unfold get, entity_store in HOLD. rewrite <- Hs in HOLD.
    erewrite delete_task_present by done. simpl.
    rewrite committed_write_log by done. eauto.
Qed.

Lemma history_log_only_grows_witness :
  let session := [(10, Add (Some "A"%string) None None None)] in
  ∃ h, history_log (conn_after (delete_task (run session) 11 1))
       = history_log (run session) ++ [h].
Proof.
  apply (history_log_only_grows
           [(10, Add (Some "A"%string) None None None)] [] ).
  vm_compute. eexists. reflexivity.
Defined.

(** ** C8: [get_task_history] *)

Lemma StronglySorted_weaken {A} (R1 R2 : relation A) (l : list A) :
  (∀ a b, R1 a b → R2 a b) → StronglySorted R1 l → StronglySorted R2 l.
Proof.
  intros HR. induction 1 as [|x l Hs IH Hx]; constructor; [done |].
  eapply Forall_impl; [exact Hx | auto].
Qed.

(** Every record carries the clock reading of a command of the session. *)
Lemma run_changed_at session :
  Forall (λ h, changed_at h ∈ session.*1) (history_log (run session)).
Proof.
  induction session as [|[now c] session IH] using rev_ind; [constructor |].
  rewrite run_snoc, fmap_app. simpl.
  destruct (run_invariant session) as [Hs _].
  assert (Forall (λ h, changed_at h ∈ session.*1 ++ [now])
                 (history_log (run session))) as IH'.
  { eapply Forall_impl; [exact IH |]. simpl. intros h Hh.
    apply elem_of_app. by left. }
  destruct (exec_history_log (run session) now c Hs) as [-> | (h & -> & Hh)];
    [done |].
  apply Forall_app. split; [done |]. constructor; [| constructor].
  apply elem_of_app. right. rewrite Hh. left.
Qed.

(** Under a clock that never runs backwards the log ascends in
    [changed_at]. *)
Lemma run_changed_at_ascends session :
  clock_monotone session →
  StronglySorted (λ a b, changed_at a ≤ changed_at b)
                 (history_log (run session)).
Proof.
  unfold clock_monotone.
  induction session as [|[now c] session IH] using rev_ind; [constructor |].
  rewrite run_snoc, fmap_app. simpl.
  intros [Hle [Hsorted _]]%StronglySorted_app.
  destruct (run_invariant session) as [Hs _].
  destruct (exec_history_log (run session) now c Hs) as [-> | (h & -> & Hh)];
    [by apply IH |].
  apply StronglySorted_app_2; [| by apply IH | repeat constructor].
  intros a b Ha ->%list_elem_of_singleton. rewrite Hh.
  pose proof (run_changed_at session) as Hall.
  rewrite Forall_forall in Hall. apply Hle; [by apply Hall | left].
Qed.

Lemma get_task_history_returns conn tid :
  in_int64 tid = true ∨ tid ∈ task_id <$> tasks_history (working conn) →
  get_task_history conn tid
  = Returned (select_from_tasks_history_where_task_id tid (working conn)).
Proof.
  intros H. unfold get_task_history, fits.
  destruct H as [-> | H]; [done |].
  rewrite (bool_decide_eq_true_2 _ H). by rewrite orb_true_r.
Qed.

(** C8, as the code has it.  In every reachable state, for a task id that
    fits 64 bits, [get_task_history] returns exactly the records of the log
    whose [task_id] is the argument, each as often as it occurs there, in
    non-decreasing [changed_at] order, records of equal [changed_at] in
    ascending [history_id] order; whenever the clock never ran backwards
    during the session this is the order in which the records were
    appended, with strictly ascending [history_id].  For a task id outside
    the 64-bit range, which no record carries, it raises [OverflowError]. *)
Theorem get_task_history_ordered
    (session : list (timestamp * command)) (tid : Z) :
  (in_int64 tid = true →
   ∃ rows,
     get_task_history (run session) tid = Returned rows ∧
     rows ≡ₚ filter (λ h, task_id h = tid) (history_log (run session)) ∧
     (∀ h, h ∈ rows ↔ h ∈ history_log (run session) ∧ task_id h = tid) ∧
     StronglySorted (λ a b, changed_at a ≤ changed_at b) rows ∧
     StronglySorted changed_at_then_history_id rows ∧
     (clock_monotone session →
      rows = filter (λ h, task_id h = tid) (history_log (run session)) ∧
      StronglySorted (λ a b, history_id a < history_id b) rows)) ∧
  (in_int64 tid = false →
   (∀ h, h ∈ history_log (run session) → task_id h ≠ tid) →
   get_task_history (run session) tid = Raised OverflowError).
Proof.
  destruct (run_invariant session) as [Hs [Hids _ _]]. split.
  - intros Hin. rewrite get_task_history_returns by by left.
    eexists. split; [done |].
    unfold select_from_tasks_history_where_task_id, history_log.
    rewrite Hs.
    set (rows := filter (λ h, task_id h = tid)
                        (tasks_history (committed (run session)))).
    assert (StronglySorted (λ a b, history_id a < history_id b) rows) as Hrows
      by by apply StronglySorted_filter.
    pose proof (order_by_sorted changed_at _ rows Hrows) as Hlex.
    split; [apply order_by_Permutation |]. split; [| split; [| split]].
    + intros h. rewrite order_by_Permutation. unfold rows.
      rewrite list_elem_of_filter. tauto.
    + eapply StronglySorted_weaken; [| exact Hlex]. simpl. intros a b. lia.
    + exact Hlex.
    + intros Hclock. apply run_changed_at_ascends in Hclock.
      rewrite order_by_already_sorted; [done |].
      by apply StronglySorted_filter.
  - intros Hout Hnone. unfold get_task_history.
    rewrite fits_not_held, Hout; [done |].
    intros (h & -> & Hh)%list_elem_of_fmap.
    apply (Hnone h); [| done]. unfold history_log. by rewrite <- Hs.
Qed.

Lemma get_task_history_ordered_witness :
  let session := [(10, Add (Some "A"%string) None None None);
                  (10, Add (Some "B"%string) None None None);
                  (10, Complete 1); (12, Delete 1)] in
  (∃ rows,
     get_task_history (run session) 1 = Returned rows ∧
     rows ≡ₚ filter (λ h, task_id h = 1) (history_log (run session)) ∧
     (∀ h, h ∈ rows ↔ h ∈ history_log (run session) ∧ task_id h = 1) ∧
     StronglySorted (λ a b, changed_at a ≤ changed_at b) rows ∧
     StronglySorted changed_at_then_history_id rows ∧
     (clock_monotone session →
      rows = filter (λ h, task_id h = 1) (history_log (run session)) ∧
      StronglySorted (λ a b, history_id a < history_id b) rows)) ∧
  get_task_history (run session) (2 ^ 63) = Raised OverflowError.
Proof.
  split.
  - apply (get_task_history_ordered
             [(10, Add (Some "A"%string) None None None);
              (10, Add (Some "B"%string) None None None);
              (10, Complete 1); (12, Delete 1)] 1).
    reflexivity.
  - apply (get_task_history_ordered
             [(10, Add (Some "A"%string) None None None);
              (10, Add (Some "B"%string) None None None);
              (10, Complete 1); (12, Delete 1)] (2 ^ 63)).
    + reflexivity.
    + intros h Hin. vm_compute in Hin.
      repeat (apply elem_of_cons in Hin as [-> | Hin]; [discriminate |]).
      by apply elem_of_nil in Hin.
Defined.

(** C8 fails as stated: a record stamped by a clock that was set back is
    returned in front of the older record of the same task, so the result
    is neither in [history_id] order nor in the order of appending. *)
Lemma get_task_history_clock_set_back :
  get_task_history
    (run [(10, Add (Some "A"%string) None None None); (9, Complete 1)]) 1
  = Returned [History 2 1 (Some "A"%string) None (Some "completed"%string)
                      None UPDATE 9;
              History 1 1 (Some "A"%string) None None None INSERT 10].
Proof. vm_compute. reflexivity. Qed.

(** * Further properties of the program *)

(** ** Every command is at most one logged write *)

Lemma select_history_found db hid h0 :
  select_from_tasks_history_where_history_id hid db = Some h0 →
  h0 ∈ tasks_history db ∧ history_id h0 = hid.
Proof.
  unfold select_from_tasks_history_where_history_id. intros H.
  apply head_Some_elem_of, list_elem_of_filter in H. tauto.
Qed.

Lemma exec_logged_write conn now c :
  synced conn →
  synced (exec conn now c) ∧
  (committed (exec conn now c) = committed conn ∨
   logged_write (committed conn) now (committed (exec conn now c))).
Proof.
  destruct conn as [db wk]. unfold synced at 1. simpl. intros ->.
  set (conn := {| committed := db; working := db |}).
  assert (working conn = db) as Hw by done.
  destruct c as [ttl dsc st pr | id ttl dsc st pr | id | id | f | tid | hid];
    simpl.
  - destruct ttl as [t|]; [| by split; [| left]].
    rewrite add_task_text. split; [done |]. right.
    cbn [conn_after committed commit execute]. rewrite Hw.
    apply write_insert; [apply new_rowid_unused | done | done | by left].
  - destruct (tasks (working conn) !! id) as [OLD|] eqn:E.
    + destruct (decide ((ttl, dsc, st, pr) = (None, None, None, None)))
        as [[= -> -> -> ->] | Hsome].
      * erewrite update_task_nothing by done. by split; [| left].
      * erewrite update_task_applied by done. split; [done |]. right.
        cbn [conn_after committed commit execute]. rewrite Hw.
        by eapply write_update.
    + rewrite update_task_absent by done.
      destruct (in_int64 id); by split; [| left].
  - unfold complete_task.
    destruct (tasks (working conn) !! id) as [OLD|] eqn:E.
    + erewrite update_task_applied by done. split; [done |]. right.
      cbn [conn_after committed commit execute]. rewrite Hw.
      by eapply write_update.
    + rewrite update_task_absent by done.
      destruct (in_int64 id); by split; [| left].
  - destruct (tasks (working conn) !! id) as [OLD|] eqn:E.
    + erewrite delete_task_present by done. split; [done |]. right.
      cbn [conn_after committed commit execute]. rewrite Hw.
      by eapply write_delete.
    + rewrite delete_task_absent by done.
      destruct (in_int64 id); by split; [| left].
  - rewrite list_tasks_conn. by split; [| left].
  - by split; [| left].
  - destruct (select_from_tasks_history_where_history_id hid (working conn))
      as [h0|] eqn:E.
    + destruct (h_title h0) as [t|] eqn:Et.
      * destruct (tasks (working conn) !! task_id h0) as [OLD|] eqn:Ek.
        -- erewrite restore_task_version_overwrites by done.
           split; [done |]. right.
           cbn [conn_after committed commit execute]. rewrite Hw.
           by eapply write_update.
        -- erewrite restore_task_version_recreates by done.
           split; [done |]. right.
           cbn [conn_after committed commit execute]. rewrite Hw.
           apply write_insert; [done | done | done |]. right.
           apply select_history_found in E as [Hin _].
           exists h0. repeat split; [done |].
           unfold history_snapshot, task_snapshot. simpl. by rewrite Et.
      * erewrite restore_task_version_NULL_title by done. by split; [| left].
    + rewrite restore_task_version_no_record by done.
      destruct (in_int64 hid); by split; [| left].
Qed.

(** What holds of the empty database and is kept by each logged write on a
    consistent database holds after every session. *)
Lemma run_logged_writes (P : database → Prop) :
  P create_database →
  (∀ db now db', consistent db → P db → logged_write db now db' → P db') →
  ∀ session, P (committed (run session)).
Proof.
  intros Hinit Hstep session.
  induction session as [|[now c] session IH] using rev_ind; [done |].
  rewrite run_snoc.
  destruct (run_invariant session) as [Hs Hc].
  destruct (exec_logged_write (run session) now c Hs) as [_ [-> | Hw]];
    [done |].
  by eapply Hstep.
Qed.

Lemma written_log db id NEW row o now :
  tasks_history (written db id NEW row o now)
  = tasks_history db ++ [logged_record db id row o now].
Proof. reflexivity. Qed.

Lemma written_table db id NEW row o now :
  tasks (written db id NEW row o now)
  = match NEW with
    | Some row' => <[id := row']> (tasks db)
    | None => delete id (tasks db)
    end.
Proof. reflexivity. Qed.

(** ** Identifiers *)

Lemma foldr_max_upper (r M : Z) (rs : list Z) :
  r ≤ M → Forall (λ x, x ≤ M) rs → foldr Z.max r rs ≤ M.
Proof. intros Hr. induction 1; simpl; lia. Qed.

Lemma new_rowid_max (rowids : list Z) (M : Z) :
  M ∈ rowids → Forall (λ x, x ≤ M) rowids → new_rowid rowids = M + 1.
Proof.
  intros Hin Hall. pose proof (new_rowid_above _ _ Hin) as Habove.
  destruct rowids as [|r rs]; [by apply elem_of_nil in Hin |].
  apply Forall_cons in Hall as [Hr Hrs]. unfold new_rowid in *.
  pose proof (foldr_max_upper r M rs Hr Hrs). lia.
Qed.

Lemma new_rowid_positive (rowids : list Z) :
  Forall (λ x, 1 ≤ x) rowids → 1 ≤ new_rowid rowids.
Proof.
  destruct rowids as [|r rs]; [done |]. intros [Hr _]%Forall_cons.
  unfold new_rowid. destruct (foldr_max_lower r rs) as [Hle _]. lia.
Qed.

(** The rowid of the next history record is the length of the log plus one
    when the records are numbered by their position. *)
Lemma new_rowid_numbered (log : list history) :
  (∀ i h, log !! i = Some h → history_id h = Z.of_nat i + 1) →
  new_rowid (history_id <$> log) = Z.of_nat (length log) + 1.
Proof.
  intros Hnum. destruct log as [|h0 log _] using rev_ind; [done |].
  rewrite length_app. simpl.
  assert (history_id h0 = Z.of_nat (length log) + 1) as Hlast.
  { apply Hnum. by rewrite lookup_app_r, Nat.sub_diag. }
  rewrite (new_rowid_max _ (history_id h0)); [lia | |].
  - apply list_elem_of_fmap. exists h0. split; [done |].
    apply elem_of_app. right. left.
  - apply Forall_fmap, Forall_forall. intros h [i Hi]%list_elem_of_lookup.
    simpl. rewrite (Hnum i h Hi), Hlast.
    apply lookup_lt_Some in Hi. rewrite length_app in Hi. simpl in Hi. lia.
Qed.

(** History ids count the records from 1 in the order of the log, whatever
    was deleted in between; the ids of the tasks in the store and the task
    ids in the log are at least 1. *)
Theorem identifiers_count_from_one (session : list (timestamp * command)) :
  (∀ i h, history_log (run session) !! i = Some h →
          history_id h = Z.of_nat i + 1) ∧
  (∀ h, h ∈ history_log (run session) → 1 ≤ task_id h) ∧
  (∀ id, is_Some (get (run session) id) → 1 ≤ id).
Proof.
  unfold history_log, get, entity_store.
  apply (run_logged_writes (λ db,
    (∀ i h, tasks_history db !! i = Some h → history_id h = Z.of_nat i + 1) ∧
    (∀ h, h ∈ tasks_history db → 1 ≤ task_id h) ∧
    (∀ id, is_Some (tasks db !! id) → 1 ≤ id))).
  - simpl. split; [| split].
    + intros i h. by rewrite lookup_nil.
    + by intros h ?%elem_of_nil.
    + intros id. rewrite lookup_empty. by intros [? ?].
  - intros db now db' _ (Hnum & Hlog & Hstore) Hw.
    assert (∀ id NEW row o,
      1 ≤ id →
      (∀ i h, tasks_history (written db id NEW row o now) !! i = Some h →
              history_id h = Z.of_nat i + 1) ∧
      (∀ h, h ∈ tasks_history (written db id NEW row o now) → 1 ≤ task_id h))
      as Hrec.
    { intros id NEW row o Hid. rewrite written_log. split.
      - intros i h Hi. apply lookup_app_Some in Hi as [Hi | [Hlen Hi]];
          [by apply Hnum |].
        apply list_lookup_singleton_Some in Hi as [Hi <-]. simpl.
        rewrite new_rowid_numbered by done. lia.
      - intros h [Hh | ->%list_elem_of_singleton]%elem_of_app;
          [by apply Hlog | done]. }
    assert (∀ id, tasks db !! id = None →
      id = new_rowid (elements (dom (tasks db))) ∨
      (∃ h0, h0 ∈ tasks_history db ∧ task_id h0 = id ∧
             ∃ row, history_snapshot h0 = task_snapshot row) →
      1 ≤ id) as Hfresh.
    { intros id _ [-> | (h0 & Hin & <- & _)]; [| by apply Hlog].
      apply new_rowid_positive, Forall_forall.
      intros k Hk%elem_of_elements%elem_of_dom. by apply Hstore. }
    destruct Hw as [id row Habs _ _ Hid | id OLD row HOLD _ _ | id OLD HOLD].
    + assert (1 ≤ id) as Hpos.
      { apply Hfresh; [done |]. destruct Hid as [?| (h0 & ? & ? & ?)];
          [by left | right; eauto]. }
      destruct (Hrec id (Some row) row INSERT Hpos) as [H1 H2].
      split; [done |]. split; [done |].
      intros k. rewrite written_table, lookup_insert. case_decide; [lia |].
      apply Hstore.
    + assert (1 ≤ id) as Hpos by (apply Hstore; eauto).
      destruct (Hrec id (Some row) row UPDATE Hpos) as [H1 H2].
      split; [done |]. split; [done |].
      intros k. rewrite written_table, lookup_insert. case_decide; [lia |].
      apply Hstore.
    + assert (1 ≤ id) as Hpos by (apply Hstore; eauto).
      destruct (Hrec id None OLD DELETE Hpos) as [H1 H2].
      split; [done |]. split; [done |].
      intros k. rewrite written_table, lookup_delete.
      case_decide; [by intros [? ?] |]. apply Hstore.
Qed.

Lemma run_numbered (session : list (timestamp * command)) (i : nat) (h : history) :
  tasks_history (committed (run session)) !! i = Some h →
  history_id h = Z.of_nat i + 1.
Proof.
  revert i h.
  apply (run_logged_writes (λ db, ∀ i h,
    tasks_history db !! i = Some h → history_id h = Z.of_nat i + 1)).
  - intros i h. simpl. by rewrite lookup_nil.
  - intros db now db' _ Hnum Hw i h.
    assert (∀ id NEW row o,
      tasks_history (written db id NEW row o now) !! i = Some h →
      history_id h = Z.of_nat i + 1) as Hrec.
    { intros id NEW row o. rewrite written_log.
      intros [Hi | [Hlen Hi]]%lookup_app_Some; [by apply Hnum |].
      apply list_lookup_singleton_Some in Hi as [Hi <-]. simpl.
      rewrite new_rowid_numbered by done. lia. }
    destruct Hw; apply Hrec.
Qed.

(** ** The log replays to the store *)

Lemma operations_of_snoc (log : list history) (h : history) (id : Z) :
  operations_of (log ++ [h]) id
  = operations_of log id ++ (if decide (task_id h = id) then [operation h] else []).
Proof.
  unfold operations_of. rewrite filter_app, fmap_app, filter_cons, filter_nil.
  by destruct (decide (task_id h = id)).
Qed.

Lemma replay_snoc (ops : list op) (o : op) :
  replay (ops ++ [o]) = life_step (replay ops) o.
Proof. unfold replay. by rewrite foldl_snoc. Qed.

Lemma operations_of_written db id' NEW row o now id :
  operations_of (tasks_history (written db id' NEW row o now)) id
  = operations_of (tasks_history db) id ++ (if decide (id' = id) then [o] else []).
Proof. by rewrite written_log, operations_of_snoc. Qed.

Lemma run_replay (session : list (timestamp * command)) (id : Z) :
  replay (operations_of (tasks_history (committed (run session))) id)
  = Some (bool_decide (is_Some (tasks (committed (run session)) !! id))).
Proof.
  revert id.
  pose proof (run_logged_writes (λ db, ∀ id,
    replay (operations_of (tasks_history db) id)
    = Some (bool_decide (is_Some (tasks db !! id))))) as Hrun.
  simpl in Hrun. apply Hrun; clear Hrun.
  - intros id. simpl. rewrite lookup_empty.
    by rewrite bool_decide_eq_false_2 by (by intros [? ?]).
  - intros db now db' _ IH Hw id.
    destruct Hw as [id' row Habs _ _ _ | id' OLD row HOLD _ _ | id' OLD HOLD];
      rewrite operations_of_written, written_table;
      (destruct (decide (id' = id)) as [-> | Hne];
       [ rewrite replay_snoc, IH | by rewrite app_nil_r, IH,
           ?lookup_insert_ne, ?lookup_delete_ne by done ]).
    + rewrite Habs, lookup_insert_eq.
      rewrite bool_decide_eq_false_2 by (by intros [? ?]).
      by rewrite bool_decide_eq_true_2 by eauto.
    + rewrite HOLD, lookup_insert_eq.
      by rewrite !bool_decide_eq_true_2 by eauto.
    + rewrite HOLD, lookup_delete_eq.
      rewrite bool_decide_eq_true_2 by eauto.
      by rewrite bool_decide_eq_false_2 by (by intros [? ?]).
Qed.

(** Replaying the operations logged for any task id from "absent" never
    gets stuck and ends in the state the store shows: live exactly when the
    task is in the store.  So the first record of a task is an INSERT, an
    INSERT follows only a DELETE or nothing, and UPDATE and DELETE only
    follow an INSERT or an UPDATE. *)
Theorem log_replays_to_store (session : list (timestamp * command)) (id : Z) :
  ∃ live : bool,
    replay (operations_of (history_log (run session)) id) = Some live ∧
    (live = true ↔ is_Some (get (run session) id)).
Proof.
  exists (bool_decide (is_Some (get (run session) id))).
  split; [| apply bool_decide_eq_true].
  unfold history_log, get, entity_store. apply run_replay.
Qed.

(** The converse of the invariant of the store: a task id that is not in
    the store has no record at all, or its last record is a DELETE. *)
Theorem absent_task_last_record
    (session : list (timestamp * command)) (id : Z) :
  get (run session) id = None →
  last (operations_of (history_log (run session)) id) = None ∨
  last (operations_of (history_log (run session)) id) = Some DELETE.
Proof.
  intros Habs. pose proof (run_replay session id) as Hreplay.
  unfold get, entity_store in Habs. rewrite Habs in Hreplay.
  rewrite bool_decide_eq_false_2 in Hreplay by (by intros [? ?]).
  fold (history_log (run session)) in Hreplay.
  destruct (operations_of (history_log (run session)) id) as [|o ops _]
    using rev_ind; [by left |].
  right. rewrite last_snoc. rewrite replay_snoc in Hreplay.
  by destruct (replay ops) as [[]|], o.
Qed.

Lemma absent_task_last_record_witness :
  let session := [(10, Add (Some "A"%string) None None None); (11, Delete 1)] in
  last (operations_of (history_log (run session)) 1) = None ∨
  last (operations_of (history_log (run session)) 1) = Some DELETE.
Proof.
  apply (absent_task_last_record
           [(10, Add (Some "A"%string) None None None); (11, Delete 1)] 1).
  vm_compute. reflexivity.
Defined.

(** ** Counting *)

Lemma count_op_snoc (o : op) (log : list history) (h : history) :
  count_op o (log ++ [h])
  = (count_op o log + (if decide (operation h = o) then 1 else 0))%nat.
Proof.
  unfold count_op. rewrite filter_app, length_app, filter_cons, filter_nil.
  by destruct (decide (operation h = o)).
Qed.

(** The number of tasks in the store is the number of INSERT records minus
    the number of DELETE records of the log. *)
Theorem store_size_from_log (session : list (timestamp * command)) :
  (size (entity_store (run session))
   + count_op DELETE (history_log (run session)))%nat
  = count_op INSERT (history_log (run session)).
Proof.
  unfold history_log, entity_store.
  apply (run_logged_writes (λ db,
    (size (tasks db) + count_op DELETE (tasks_history db))%nat
    = count_op INSERT (tasks_history db))).
  - done.
  - intros db now db' _ IH Hw.
    destruct Hw as [id row Habs _ _ _ | id OLD row HOLD _ _ | id OLD HOLD];
      rewrite written_log, written_table, !count_op_snoc.
    + rewrite map_size_insert_None by done. simpl. lia.
    + rewrite map_size_insert_Some by eauto. simpl. lia.
    + rewrite map_size_delete_Some by eauto.
      assert (size (tasks db) ≠ 0%nat) as Hsize.
      { intros Hempty%map_size_empty_inv.
        by rewrite Hempty, lookup_empty in HOLD. }
      simpl. lia.
Qed.

(** ** Timestamps *)

Lemma last_filter_snoc {A} (P : A → Prop) `{∀ x, Decision (P x)}
    (l : list A) (x : A) :
  last (filter P (l ++ [x]))
  = if decide (P x) then Some x else last (filter P l).
Proof.
  rewrite filter_app, filter_cons, filter_nil.
  destruct (decide (P x)); [by rewrite last_snoc | by rewrite app_nil_r].
Qed.

Lemma run_timestamps (session : list (timestamp * command)) (id : Z) (row : task) :
  tasks (committed (run session)) !! id = Some row →
  (∃ h, last (filter (λ h, task_id h = id)
                 (tasks_history (committed (run session)))) = Some h ∧
        changed_at h = updated_at row) ∧
  (∃ hi, last (filter (λ h, task_id h = id ∧ operation h = INSERT)
                  (tasks_history (committed (run session)))) = Some hi ∧
         changed_at hi = created_at row).
Proof.
  revert id row.
  apply (run_logged_writes (λ db, ∀ id row,
    tasks db !! id = Some row →
    (∃ h, last (filter (λ h, task_id h = id) (tasks_history db)) = Some h ∧
          changed_at h = updated_at row) ∧
    (∃ hi, last (filter (λ h, task_id h = id ∧ operation h = INSERT)
                    (tasks_history db)) = Some hi ∧
           changed_at hi = created_at row))).
  - intros id row. simpl. by rewrite lookup_empty.
  - intros db now db' _ IH Hw id row.
    destruct Hw as [id' row' Habs Hc Hu _ | id' OLD row' HOLD Hc Hu | id' OLD HOLD];
      rewrite written_log, written_table, !last_filter_snoc; simpl.
    + rewrite lookup_insert. destruct (decide (id' = id)) as [-> | Hne].
      * intros [= <-]. rewrite decide_True by done.
        split; eexists; (split; [done |]); simpl; congruence.
      * rewrite decide_False by tauto. apply IH.
    + rewrite lookup_insert. destruct (decide (id' = id)) as [-> | Hne].
      * intros [= <-]. rewrite decide_False by (intros [_ ?]; done).
        split; [eexists; split; [done |]; simpl; congruence |].
        destruct (IH id OLD HOLD) as [_ (hi & Hhi & Hci)].
        exists hi. split; [done | congruence].
      * rewrite decide_False by tauto. apply IH.
    + rewrite lookup_delete. destruct (decide (id' = id)) as [-> | Hne];
        [done |].
      rewrite decide_False by tauto. apply IH.
Qed.

(** For every task in the store, [updated_at] is the [changed_at] of its
    most recent record and [created_at] is the [changed_at] of the last
    INSERT record logged for it. *)
Theorem task_timestamps_are_logged
    (session : list (timestamp * command)) (id : Z) (row : task) :
  get (run session) id = Some row →
  (∃ h, most_recent (history_log (run session)) id h ∧
        changed_at h = updated_at row) ∧
  (∃ hi, last (filter (λ h, task_id h = id ∧ operation h = INSERT)
                  (history_log (run session))) = Some hi ∧
         changed_at hi = created_at row).
Proof.
  intros Hrow. destruct (run_invariant session) as [_ [Hids _ _]].
  destruct (run_timestamps session id row Hrow) as [(h & Hh & Hu) Hcreated].
  split; [| done]. exists h. split; [| done].
  by apply last_record_most_recent.
Qed.

Lemma task_timestamps_are_logged_witness :
  let session := [(10, Add (Some "A"%string) None None None);
                  (12, Complete 1); (15, Restore 1)] in
  (∃ h, most_recent (history_log (run session)) 1 h ∧ changed_at h = 15) ∧
  (∃ hi, last (filter (λ h, task_id h = 1 ∧ operation h = INSERT)
                  (history_log (run session))) = Some hi ∧
         changed_at hi = 10).
Proof.
  apply (task_timestamps_are_logged
           [(10, Add (Some "A"%string) None None None);
            (12, Complete 1); (15, Restore 1)]
           1 (Task "A" None None None 10 15)).
  vm_compute. reflexivity.
Defined.

Lemma StronglySorted_lookup_le {A} (R : relation A) (l : list A)
    (i j : nat) (x y : A) :
  StronglySorted R l → (i < j)%nat →
  l !! i = Some x → l !! j = Some y → R x y.
Proof.
  intros Hs Hij Hi Hj. rewrite <- (take_drop j l) in Hs.
  eapply StronglySorted_app_1_elem_of; [exact Hs | |].
  - apply list_elem_of_lookup. exists i. by rewrite lookup_take_lt.
  - apply list_elem_of_lookup. exists 0%nat. by rewrite lookup_drop, Nat.add_0_r.
Qed.

(** When the clock never ran backwards during the session, no task in the
    store was updated before it was created. *)
Theorem created_before_updated
    (session : list (timestamp * command)) (id : Z) (row : task) :
  clock_monotone session →
  get (run session) id = Some row →
  created_at row ≤ updated_at row.
Proof.
  intros Hclock Hrow. destruct (run_invariant session) as [_ [Hids _ _]].
  destruct (run_timestamps session id row Hrow)
    as [(h & Hh & <-) (hi & Hlast & <-)].
  apply last_record_most_recent in Hh as (Hin & Hid & Hmax); [| done].
  apply last_Some_elem_of, list_elem_of_filter in Hlast as [[Hidi _] Hini].
  specialize (Hmax hi Hini Hidi).
  apply list_elem_of_lookup in Hin as [j Hj].
  apply list_elem_of_lookup in Hini as [i Hi].
  rewrite (run_numbered session i hi Hi), (run_numbered session j h Hj) in Hmax.
  destruct (decide (i = j)) as [-> | Hne]; [by simplify_eq |].
  apply (StronglySorted_lookup_le _ _ i j hi h
           (run_changed_at_ascends session Hclock)); [lia | done | done].
Qed.

Lemma created_before_updated_witness :
  created_at (Task "A" None (Some "completed"%string) None 10 12)
  ≤ updated_at (Task "A" None (Some "completed"%string) None 10 12).
Proof.
  apply (created_before_updated
           [(10, Add (Some "A"%string) None None None); (12, Complete 1)] 1).
  - unfold clock_monotone. simpl. repeat constructor; lia.
  - vm_compute. reflexivity.
Defined.

(** ** [delete_task] and [complete_task] *)

(** [delete_task] on an id that is not in the store changes nothing: when
    the id fits 64 bits it reports that no task was found and returns
    [False], otherwise it raises [OverflowError] at the SELECT; on a task of
    the store it returns [True] and removes that task and no other. *)
Theorem delete_task_outcomes
    (session : list (timestamp * command)) (now : timestamp) (id : Z) :
  (get (run session) id = None → in_int64 id = true →
   delete_task (run session) now id
   = Reply (run session) [No_task_found_with_ID id] (Returned false)) ∧
  (get (run session) id = None → in_int64 id = false →
   delete_task (run session) now id
   = Reply (run session) [] (Raised OverflowError)) ∧
  (is_Some (get (run session) id) →
   let r := delete_task (run session) now id in
   result r = Returned true ∧
   printed r = [Task_deleted_successfully id] ∧
   entity_store (conn_after r) = delete id (entity_store (run session)) ∧
   get (conn_after r) id = None ∧
   ∀ k, k ≠ id → get (conn_after r) k = get (run session) k).
Proof.
  destruct (run_invariant session) as [Hs _].
  unfold get, entity_store. rewrite <- Hs. split; [| split].
  - intros Habs Hin. by rewrite delete_task_absent, Hin.
  - intros Habs Hout. by rewrite delete_task_absent, Hout.
  - intros [OLD HOLD]. cbv zeta. erewrite delete_task_present by done.
    simpl. rewrite lookup_delete_eq. repeat split.
    intros k Hk. by rewrite lookup_delete_ne.
Qed.

Lemma delete_task_outcomes_witness :
  let conn := run [(10, Add (Some "A"%string) None None None)] in
  delete_task conn 11 2
    = Reply conn [No_task_found_with_ID 2] (Returned false) ∧
  delete_task conn 11 (2 ^ 63) = Reply conn [] (Raised OverflowError) ∧
  (let r := delete_task conn 11 1 in
   result r = Returned true ∧
   printed r = [Task_deleted_successfully 1] ∧
   entity_store (conn_after r) = delete 1 (entity_store conn) ∧
   get (conn_after r) 1 = None ∧
   ∀ k, k ≠ 1 → get (conn_after r) k = get conn k).
Proof.
  split; [| split].
  - apply (delete_task_outcomes
             [(10, Add (Some "A"%string) None None None)] 11 2);
      vm_compute; reflexivity.
  - apply (delete_task_outcomes
             [(10, Add (Some "A"%string) None None None)] 11 (2 ^ 63));
      vm_compute; reflexivity.
  - apply (delete_task_outcomes
             [(10, Add (Some "A"%string) None None None)] 11 1).
    vm_compute. eexists. reflexivity.
Defined.



(** ** Round trips through [restore_task_version] *)

(** Restoring from a record of the log, in a synced connection with a
    consistent database: the record is found and its title is a text. *)
Lemma restore_outcome conn now h0 :
  synced conn → consistent (committed conn) →
  h0 ∈ history_log conn →
  ∃ t, h_title h0 = Some t ∧
    restore_task_version conn now (history_id h0)
    = match get conn (task_id h0) with
      | None =>
          let NEW := Task t (h_description h0) (h_status h0) (h_priority h0)
                          now now in
          Reply (commit (execute conn
                   (written (working conn) (task_id h0) (Some NEW) NEW INSERT now)))
                [Task_restored_to_version (task_id h0) (history_id h0)]
                (Returned true)
      | Some OLD =>
          let NEW := Task t (h_description h0) (h_status h0) (h_priority h0)
                          (created_at OLD) now in
          Reply (commit (execute conn
                   (written (working conn) (task_id h0) (Some NEW) NEW UPDATE now)))
                [Task_restored_to_version (task_id h0) (history_id h0)]
                (Returned true)
      end.
Proof.
  intros Hs [Hids Httl _] Hin. unfold history_log, get, entity_store in *.
  rewrite <- Hs in *.
  rewrite Forall_forall in Httl. destruct (Httl h0 Hin) as [t Ht].
  exists t. split; [done |].
  pose proof (select_history_by_id _ h0 Hids Hin) as Hsel.
  destruct (tasks (working conn) !! task_id h0) as [OLD|] eqn:E.
  - by erewrite restore_task_version_overwrites.
  - by erewrite restore_task_version_recreates.
Qed.

(** Deleting a task and then restoring from the DELETE record just logged
    brings the task back under its id with the title, description, status
    and priority it had, next to the same other tasks; [created_at] is not
    brought back, both timestamps are those of the restore. *)
Theorem delete_then_restore
    (session : list (timestamp * command)) (now1 now2 : timestamp)
    (id : Z) (OLD : task) :
  get (run session) id = Some OLD →
  let deleted := conn_after (delete_task (run session) now1 id) in
  ∃ h, history_log deleted = history_log (run session) ++ [h] ∧
       operation h = DELETE ∧
       let r := restore_task_version deleted now2 (history_id h) in
       result r = Returned true ∧
       entity_store (conn_after r)
       = <[id := Task (title OLD) (description OLD) (status OLD)
                      (priority OLD) now2 now2]> (entity_store (run session)).
Proof.
  intros HOLD deleted.
  assert (deleted = run (session ++ [(now1, Delete id)])) as Hrun
    by by rewrite run_snoc.
  destruct (run_invariant session) as [Hs _].
  destruct (run_invariant (session ++ [(now1, Delete id)])) as [Hs' Hc'].
  rewrite <- Hrun in Hs', Hc'.
  assert (tasks (working (run session)) !! id = Some OLD) as HOLD'.
  { unfold get, entity_store in HOLD. by rewrite Hs. }
  assert (deleted = commit (execute (run session)
            (written (working (run session)) id None OLD DELETE now1))) as Hdel.
  { unfold deleted. by erewrite delete_task_present. }
  set (h := logged_record (committed (run session)) id OLD DELETE now1).
  assert (history_log deleted = history_log (run session) ++ [h]) as Hlog.
  { rewrite Hdel. by apply committed_write_log. }
  exists h. split; [done |]. split; [done |].
  destruct (restore_outcome deleted now2 h Hs' Hc') as (t & Ht & ->).
  { rewrite Hlog. apply elem_of_app. right. left. }
  assert (get deleted (task_id h) = None) as ->.
  { rewrite Hdel. unfold get. rewrite committed_write_store by done.
    apply lookup_delete_eq. }
  injection Ht as <-. simpl. split; [done |].
  unfold entity_store. rewrite Hdel. simpl.
  rewrite insert_delete_eq. by rewrite Hs.
Qed.

Lemma delete_then_restore_witness :
  let session := [(10, Add (Some "A"%string) (Some "d"%string) None None)] in
  let deleted := conn_after (delete_task (run session) 11 1) in
  ∃ h, history_log deleted = history_log (run session) ++ [h] ∧
       operation h = DELETE ∧
       let r := restore_task_version deleted 12 (history_id h) in
       result r = Returned true ∧
       entity_store (conn_after r)
       = <[1 := Task "A" (Some "d"%string) None None 12 12]>
           (entity_store (run session)).
Proof.
  apply (delete_then_restore
           [(10, Add (Some "A"%string) (Some "d"%string) None None)] 11 12 1
           (Task "A" (Some "d"%string) None None 10 10)).
  vm_compute. reflexivity.
Defined.

Lemma most_recent_is_last (log : list history) (id : Z) (h h' : history) :
  StronglySorted (λ a b, history_id a < history_id b) log →
  most_recent log id h →
  last (filter (λ h, task_id h = id) log) = Some h' →
  h = h'.
Proof.
  intros Hs (Hin & Hid & Hmax) Hlast.
  destruct (last_record_most_recent log id h' Hs Hlast) as (Hin' & Hid' & Hmax').
  specialize (Hmax h' Hin' Hid'). specialize (Hmax' h Hin Hid).
  pose proof (select_history_by_id {| tasks := ∅; tasks_history := log |}
                h Hs Hin) as H1.
  pose proof (select_history_by_id {| tasks := ∅; tasks_history := log |}
                h' Hs Hin') as H2.
  replace (history_id h') with (history_id h) in H2 by lia. congruence.
Qed.

(** Undo: after a successful [update_task], restoring from the record that
    was the most recent one of the task before the update gives the task
    back the title, description, status and priority it had before; its
    [created_at] is kept. *)
Theorem update_then_restore_undoes
    (session : list (timestamp * command)) (now1 now2 : timestamp) (id : Z)
    (ttl dsc st pr : option string) (OLD : task) (h : history) :
  get (run session) id = Some OLD →
  most_recent (history_log (run session)) id h →
  result (update_task (run session) now1 id ttl dsc st pr) = Returned true →
  let updated := conn_after (update_task (run session) now1 id ttl dsc st pr) in
  let r := restore_task_version updated now2 (history_id h) in
  result r = Returned true ∧
  get (conn_after r) id
  = Some (Task (title OLD) (description OLD) (status OLD) (priority OLD)
               (created_at OLD) now2).
Proof.
  intros HOLD Hrecent Hok updated.
  assert (updated = run (session ++ [(now1, Edit id ttl dsc st pr)])) as Hrun
    by by rewrite run_snoc.
  destruct (run_invariant session) as [Hs [Hids Httl Hlogged]].
  destruct (run_invariant (session ++ [(now1, Edit id ttl dsc st pr)]))
    as [Hs' Hc'].
  rewrite <- Hrun in Hs', Hc'.
  destruct (Hlogged id OLD HOLD) as (h' & Hlast & Hsnap & _).
  assert (h = h') as <- by by eapply most_recent_is_last.
  destruct Hrecent as (Hin & Hid & _).
  assert (tasks (working (run session)) !! id = Some OLD) as HOLD'.
  { unfold get, entity_store in HOLD. by rewrite Hs. }
  assert ((ttl, dsc, st, pr) ≠ (None, None, None, None)) as Hsome.
  { intros [= -> -> -> ->]. by erewrite update_task_nothing in Hok. }
  set (NEW := Task (default (title OLD) ttl) (supplied dsc (description OLD))
                   (supplied st (status OLD)) (supplied pr (priority OLD))
                   (created_at OLD) now1).
  assert (updated = commit (execute (run session)
            (written (working (run session)) id (Some NEW) NEW UPDATE now1)))
    as Hupd.
  { unfold updated. by erewrite update_task_applied. }
  destruct (restore_outcome updated now2 h Hs' Hc') as (t & Ht & Hr).
  { rewrite Hupd, committed_write_log by done. apply elem_of_app. by left. }
  intros r. subst r. rewrite Hr, Hid.
  assert (get updated id = Some NEW) as ->.
  { rewrite Hupd. unfold get. rewrite committed_write_store by done.
    apply lookup_insert_eq. }
  simpl. split; [done |]. unfold get, entity_store. simpl.
  rewrite lookup_insert_eq.
  unfold history_snapshot, task_snapshot in Hsnap.
  injection Hsnap as Ht' -> -> ->. rewrite Ht' in Ht. by injection Ht as <-.
Qed.

Lemma update_then_restore_undoes_witness :
  let session := [(10, Add (Some "A"%string) None None None)] in
  let updated :=
    conn_after (update_task (run session) 11 1 (Some "B"%string) None None None) in
  let r := restore_task_version updated 12 1 in
  result r = Returned true ∧
  get (conn_after r) 1 = Some (Task "A" None None None 10 12).
Proof.
  apply (update_then_restore_undoes
           [(10, Add (Some "A"%string) None None None)] 11 12 1
           (Some "B"%string) None None None
           (Task "A" None None None 10 10)
           (History 1 1 (Some "A"%string) None None None INSERT 10)).
  - vm_compute. reflexivity.
  - split; [vm_compute; left |]. split; [reflexivity |].
    intros h' Hin _. vm_compute in Hin.
    apply list_elem_of_singleton in Hin as ->. simpl. lia.
  - vm_compute. reflexivity.
Defined.

(** ** The ids [add_task] hands out *)




(** ** [list_tasks] *)

Lemma NoDup_fst_distinct {A B} (l : list (A * B)) :
  NoDup l.*1 → StronglySorted (λ a b, a.1 ≠ b.1) l.
Proof.
  induction l as [|x l IH]; simpl; [constructor |].
  intros [Hx Hl]%NoDup_cons. constructor; [by apply IH |].
  apply Forall_forall. intros y Hy Heq. apply Hx. rewrite Heq.
  apply list_elem_of_fmap. eauto.
Qed.

Lemma select_from_tasks_rows where_status db :
  StronglySorted (λ a b : Z * task, a.1 < b.1)
                 (select_from_tasks where_status db) ∧
  ∀ id row, (id, row) ∈ select_from_tasks where_status db ↔
            tasks db !! id = Some row ∧
            match where_status with
            | None => True
            | Some s => status row = Some s
            end.
Proof.
  unfold select_from_tasks.
  pose proof (NoDup_fst_distinct _ (NoDup_fst_map_to_list (tasks db))) as Hnd.
  split.
  - eapply StronglySorted_weaken;
      [| apply (order_by_sorted fst (λ a b : Z * task, a.1 ≠ b.1));
         destruct where_status; [by apply StronglySorted_filter | done]].
    simpl. intros a b [H | [H1 H2]]; [done | by destruct H2].
  - intros id row. rewrite order_by_Permutation.
    destruct where_status as [s|].
    + rewrite list_elem_of_filter, elem_of_map_to_list. simpl. tauto.
    + rewrite elem_of_map_to_list. tauto.
Qed.

Lemma print_each_all {A} (formats : A → bool) (rows : list A) :
  Forall (λ r, formats r = true) rows →
  print_each formats rows = (rows, Returned ()).
Proof.
  induction 1 as [|r rows Hr _ IH]; simpl; [done |]. by rewrite Hr, IH.
Qed.

Lemma print_each_stops {A} (formats : A → bool) (before after : list A) (r : A) :
  Forall (λ r, formats r = true) before → formats r = false →
  print_each formats (before ++ r :: after) = (before, Raised TypeError).
Proof.
  intros Hb Hr. induction Hb as [|x before Hx _ IH]; simpl.
  - by rewrite Hr.
  - by rewrite Hx, IH.
Qed.

(** [list_tasks] never changes the connection.  The rows it fetches are
    the tasks of the store that are asked for, each once, in strictly
    ascending order of id; a filter that is [None] or empty asks for every
    task, any other filter for the tasks with exactly that status.  With no
    row it announces that no tasks were found.  Otherwise it prints the
    lines of the rows in that order and returns, unless a row has a NULL
    description, status or priority: then it stops with [TypeError] after
    the lines of the rows in front of the first such row. *)
Theorem list_tasks_prints
    (session : list (timestamp * command)) (filter_status : option string) :
  let r := list_tasks (run session) filter_status in
  let no_NULL (x : Z * task) :=
    is_Some (description x.2) ∧ is_Some (status x.2) ∧ is_Some (priority x.2) in
  conn_after r = run session ∧
  ∃ rows,
    StronglySorted (λ a b : Z * task, a.1 < b.1) rows ∧
    (∀ id row, (id, row) ∈ rows ↔
               get (run session) id = Some row ∧ asked_for filter_status row) ∧
    (rows = [] → printed r = [No_tasks_found] ∧ result r = Returned ()) ∧
    (rows ≠ [] → Forall no_NULL rows →
     printed r = [Current_Tasks rows] ∧ result r = Returned ()) ∧
    (∀ before x after,
       rows = before ++ x :: after → Forall no_NULL before → ¬ no_NULL x →
       printed r = [Current_Tasks before] ∧ result r = Raised TypeError).
Proof.
  destruct (run_invariant session) as [Hs _]. cbv zeta.
  split; [apply list_tasks_conn |]. unfold list_tasks.
  set (where_status := match filter_status with
                       | Some s => if bool_decide (s = EmptyString) then None else Some s
                       | None => None
                       end).
  destruct (select_from_tasks_rows where_status (working (run session)))
    as [Hsorted Hrows].
  set (rows := select_from_tasks where_status (working (run session))) in *.
  assert (∀ l : list (Z * task),
    Forall (λ x, is_Some (description x.2) ∧ is_Some (status x.2) ∧
                 is_Some (priority x.2)) l →
    Forall (λ x, task_formats x = true) l) as Hformats.
  { intros l Hl. eapply Forall_impl; [exact Hl |].
    intros x Hx. by apply bool_decide_eq_true_2. }
  exists rows. split; [done |]. split; [| split; [| split]].
  - intros id row. rewrite Hrows. unfold get, entity_store. rewrite <- Hs.
    unfold where_status, asked_for. destruct filter_status as [s|]; [| done].
    case_bool_decide; tauto.
  - by intros ->.
  - intros Hne Hall. destruct rows as [|x rows']; [done |].
    by rewrite (print_each_all _ _ (Hformats _ Hall)).
  - intros before x after Hrows' Hbefore Hx.
    destruct rows as [|y rows'] eqn:E; [by destruct before |].
    rewrite Hrows'.
    rewrite (print_each_stops task_formats before after x (Hformats _ Hbefore));
      [done |].
    by apply bool_decide_eq_false_2.
Qed.

(** ** What is shown of a task and of a record *)

Lemma slice_to_length (n : nat) (s : string) :
  String.length (slice_to n s) = Nat.min n (String.length s).
Proof.
  revert s. induction n as [|n IH]; intros [|c s]; simpl; [done .. |].
  by rewrite IH.
Qed.

Lemma slice_to_prefix (n : nat) (s : string) :
  ∃ rest, s = slice_to n s +:+ rest.
Proof.
  revert s. induction n as [|n IH]; intros s.
  - exists s. by destruct s.
  - destruct s as [|c s]; [by exists EmptyString |].
    destruct (IH s) as [rest Hrest]. exists rest.
    change (String c s = String c (slice_to n s +:+ rest)). by f_equal.
Qed.

Lemma string_length_app (s1 s2 : string) :
  String.length (s1 +:+ s2) = (String.length s1 + String.length s2)%nat.
Proof. induction s1 as [|c s1 IH]; simpl; [done | by rewrite IH]. Qed.

(** In a line of [list_tasks] the title shown is the beginning of the
    title, as long as the title up to 20 characters; a missing description
    is shown as missing, a description of at most 30 characters as it is,
    and a longer one as its first 27 characters followed by three dots, so
    that the description shown never exceeds 30 characters. *)
Theorem list_tasks_line_widths (id : Z) (row : task) :
  let '(_, shown_title, shown_dsc, _, _, _) := list_tasks_line (id, row) in
  String.length shown_title = Nat.min 20 (String.length (title row)) ∧
  (∃ rest, title row = shown_title +:+ rest) ∧
  match description row with
  | None => shown_dsc = None
  | Some d =>
      if bool_decide (String.length d ≤ 30)%nat
      then shown_dsc = Some d
      else ∃ start rest,
             shown_dsc = Some (start +:+ "...") ∧
             String.length start = 27%nat ∧ d = start +:+ rest
  end ∧
  (∀ d, shown_dsc = Some d → (String.length d ≤ 30)%nat).
Proof.
  cbv beta iota zeta delta [list_tasks_line fst snd].
  split; [apply slice_to_length |]. split; [apply slice_to_prefix |].
  unfold shown_description. destruct (description row) as [d0|]; [| done].
  destruct (decide (String.length d0 ≤ 30)%nat) as [Hle | Hgt].
  - rewrite bool_decide_eq_true_2 by done.
    rewrite bool_decide_eq_false_2 by lia. split; [done |].
    intros d Hd. apply (inj Some) in Hd. by subst d.
  - rewrite bool_decide_eq_false_2 by done.
    rewrite bool_decide_eq_true_2 by lia. split.
    + exists (slice_to 27 d0). destruct (slice_to_prefix 27 d0) as [rest Hrest].
      exists rest. split; [done |]. split; [| done].
      rewrite slice_to_length. lia.
    + intros d Hd. apply (inj Some) in Hd. subst d.
      rewrite string_length_app, slice_to_length.
      change (String.length "...") with 3%nat. lia.
Qed.

(** ** [display_task_history] *)

Lemma run_task_history_Permutation
    (session : list (timestamp * command)) (tid : Z) :
  select_from_tasks_history_where_task_id tid (working (run session))
  ≡ₚ filter (λ h, task_id h = tid) (history_log (run session)).
Proof.
  destruct (run_invariant session) as [Hs _].
  unfold select_from_tasks_history_where_task_id, history_log.
  rewrite Hs. apply order_by_Permutation.
Qed.

(** [display_task_history] on a task id that no record of the log carries
    announces that there is no history when the id fits 64 bits, and raises
    [OverflowError] without printing when it does not.  On a task id that
    some record carries, as every task of the store is, it prints under the
    header one line per record of that task, in the order of
    [get_task_history], and returns, unless a record has a NULL status or
    priority: then it stops with [TypeError] after the lines of the records
    in front of the first such record. *)
Theorem display_task_history_shows
    (session : list (timestamp * command)) (tid : Z) :
  let no_NULL (h : history) := is_Some (h_status h) ∧ is_Some (h_priority h) in
  ((∀ h, h ∈ history_log (run session) → task_id h ≠ tid) →
   display_task_history (run session) tid
   = if in_int64 tid
     then ([No_history_found_for_task tid], Returned ())
     else ([], Raised OverflowError)) ∧
  ((∃ h, h ∈ history_log (run session) ∧ task_id h = tid) →
   ∃ rows,
     get_task_history (run session) tid = Returned rows ∧
     rows ≠ [] ∧
     length rows
     = length (filter (λ h, task_id h = tid) (history_log (run session))) ∧
     (Forall no_NULL rows →
      display_task_history (run session) tid
      = ([History_for_Task tid (history_line <$> rows)], Returned ())) ∧
     (∀ before x after,
        rows = before ++ x :: after → Forall no_NULL before → ¬ no_NULL x →
        display_task_history (run session) tid
        = ([History_for_Task tid (history_line <$> before)], Raised TypeError))) ∧
  (is_Some (get (run session) tid) →
   ∃ h, h ∈ history_log (run session) ∧ task_id h = tid).
Proof.
  destruct (run_invariant session) as [Hs [_ _ Hlogged]]. cbv zeta.
  pose proof (run_task_history_Permutation session tid) as Hperm.
  assert (∀ l : list history,
    Forall (λ h, is_Some (h_status h) ∧ is_Some (h_priority h)) l →
    Forall (λ h, record_formats h = true) l) as Hformats.
  { intros l Hl. eapply Forall_impl; [exact Hl |].
    intros x Hx. by apply bool_decide_eq_true_2. }
  split; [| split].
  - intros Hnone. unfold display_task_history, get_task_history.
    rewrite fits_not_held.
    + destruct (in_int64 tid); [| done]. simpl.
      destruct (select_from_tasks_history_where_task_id tid
                  (working (run session))) as [|h l] eqn:E; [done |].
      assert (h ∈ filter (λ h, task_id h = tid) (history_log (run session)))
        as Hf by (rewrite <- Hperm; left).
      apply list_elem_of_filter in Hf as [Hid Hin]. by destruct (Hnone h Hin).
    + intros (h & -> & Hh)%list_elem_of_fmap.
      apply (Hnone h); [| done]. unfold history_log. by rewrite <- Hs.
  - intros (h & Hin & Hid).
    assert (get_task_history (run session) tid
            = Returned (select_from_tasks_history_where_task_id tid
                          (working (run session)))) as Hget.
    { apply get_task_history_returns. right.
      apply list_elem_of_fmap. exists h. split; [done |].
      unfold history_log in Hin. by rewrite Hs. }
    unfold display_task_history. rewrite Hget.
    set (rows := select_from_tasks_history_where_task_id tid
                   (working (run session))) in *.
    assert (rows ≠ []) as Hne.
    { intros Hnil. rewrite Hnil in Hperm. apply Permutation_nil_l in Hperm.
      assert (h ∈ filter (λ h, task_id h = tid) (history_log (run session)))
        as Hf by by apply list_elem_of_filter.
      rewrite <- Hperm in Hf. by apply elem_of_nil in Hf. }
    exists rows. split; [done |]. split; [done |].
    split; [by rewrite Hperm |]. split.
    + intros Hall. destruct rows as [|x rows']; [done |].
      by rewrite (print_each_all _ _ (Hformats _ Hall)).
    + intros before x after Hrows Hbefore Hx.
      destruct rows as [|y rows'] eqn:E; [done |]. rewrite Hrows.
      rewrite (print_each_stops record_formats before after x
                 (Hformats _ Hbefore)); [done |].
      by apply bool_decide_eq_false_2.
  - intros [row Hrow]. destruct (Hlogged tid row Hrow) as (h & Hlast & _).
    apply last_Some_elem_of, list_elem_of_filter in Hlast as [Hid Hin].
    by exists h.
Qed.

Lemma display_task_history_shows_witness :
  let session := [(10, Add (Some "A"%string) None (Some "pending"%string)
                           (Some "low"%string));
                  (11, Add (Some "B"%string) None None None)] in
  display_task_history (run session) 5
    = ([No_history_found_for_task 5], Returned ()) ∧
  display_task_history (run session) (2 ^ 63) = ([], Raised OverflowError) ∧
  display_task_history (run session) 1
    = ([History_for_Task 1
          [(1, INSERT, 10, "A"%string, Some "pending"%string,
            Some "low"%string)]], Returned ()) ∧
  display_task_history (run session) 2
    = ([History_for_Task 2 []], Raised TypeError).
Proof.
  pose (session := [(10, Add (Some "A"%string) None (Some "pending"%string)
                             (Some "low"%string));
                    (11, Add (Some "B"%string) None None None)]).
  assert (∀ tid, tid ≠ 1 → tid ≠ 2 →
    ∀ h, h ∈ history_log (run session) → task_id h ≠ tid) as Hnone.
  { intros tid H1 H2 h Hin. vm_compute in Hin.
    repeat (apply elem_of_cons in Hin as [-> | Hin]; [simpl; congruence |]).
    by apply elem_of_nil in Hin. }
  assert (5 ≠ 1 ∧ 5 ≠ 2 ∧ 2 ^ 63 ≠ 1 ∧ 2 ^ 63 ≠ 2) as (H51 & H52 & Hb1 & Hb2)
    by lia.
  split; [| split; [| split]].
  - apply (proj1 (display_task_history_shows session 5) (Hnone 5 H51 H52)).
  - apply (proj1 (display_task_history_shows session (2 ^ 63))
             (Hnone _ Hb1 Hb2)).
  - destruct (proj1 (proj2 (display_task_history_shows session 1)))
      as (rows & Hget & _ & _ & Hall & _).
    { eexists. split; [vm_compute; left | reflexivity]. }
    vm_compute in Hget. injection Hget as <-. apply Hall.
    repeat constructor; by eexists.
  - destruct (proj1 (proj2 (display_task_history_shows session 2)))
      as (rows & Hget & _ & _ & _ & Hstop).
    { eexists. split; [vm_compute; right; left | reflexivity]. }
    vm_compute in Hget. injection Hget as <-.
    apply (Hstop [] (History 2 2 (Some "B"%string) None None None INSERT 11) []);
      [reflexivity | constructor |].
    intros [[? Hs] _]. discriminate Hs.
Defined.

(** ** The [add] and [edit] choices of [main] *)




(** ** What raises *)

Lemma print_each_raises {A} (formats : A → bool) (rows : list A) (e : exn) :
  (print_each formats rows).2 = Raised e ↔
  e = TypeError ∧ ∃ x, x ∈ rows ∧ formats x = false.
Proof.
  destruct (print_each_outcome formats rows)
    as [[-> Hall] | (before & r & after & -> & Hb & Hr & ->)]; simpl.
  - split; [done |]. intros [_ (x & Hx & Hfx)].
    rewrite Forall_forall in Hall. specialize (Hall x Hx). congruence.
  - split.
    + intros [= <-]. split; [done |]. exists r. split; [| done].
      apply elem_of_app. right. left.
    + by intros [-> _].
Qed.

Lemma list_tasks_raises conn filter_status (e : exn) :
  result (list_tasks conn filter_status) = Raised e ↔
  e = TypeError ∧
  ∃ x, x ∈ select_from_tasks
             match filter_status with
             | Some s => if bool_decide (s = EmptyString) then None else Some s
             | None => None
             end (working conn) ∧
       task_formats x = false.
Proof.
  unfold list_tasks. destruct (select_from_tasks _ _) as [|r rows] eqn:E.
  - simpl. split; [done |]. by intros [_ (x & Hx%elem_of_nil & _)].
  - rewrite <- print_each_raises.
    by destruct (print_each task_formats (r :: rows)).
Qed.


(** ** Sessions at the menu store no NULL *)

Lemma written_filled db id NEW row o now :
  ((∀ k r, tasks db !! k = Some r → filled (task_snapshot r)) ∧
   Forall (λ h, filled (history_snapshot h)) (tasks_history db)) →
  filled (task_snapshot row) →
  NEW = Some row ∨ NEW = None →
  (∀ k r, tasks (written db id NEW row o now) !! k = Some r →
          filled (task_snapshot r)) ∧
  Forall (λ h, filled (history_snapshot h))
         (tasks_history (written db id NEW row o now)).
Proof.
  intros [Hstore Hlog] Hrow HNEW. split.
  - intros k r. rewrite written_table. destruct HNEW as [-> | ->].
    + rewrite lookup_insert. case_decide; [by intros [= <-] | apply Hstore].
    + rewrite lookup_delete. case_decide; [done | apply Hstore].
  - rewrite written_log. apply Forall_app. split; [done |].
    constructor; [exact Hrow | constructor].
Qed.

Lemma typed_not_empty (input x : string) : typed input = Some x → x ≠ EmptyString.
Proof. unfold typed. case_bool_decide; [done | by intros [= <-]]. Qed.

Lemma menu_call_filled conn now m :
  synced conn →
  ((∀ k r, tasks (committed conn) !! k = Some r → filled (task_snapshot r)) ∧
   Forall (λ h, filled (history_snapshot h)) (tasks_history (committed conn))) →
  (∀ k r, tasks (committed (exec conn now (menu_call m))) !! k = Some r →
          filled (task_snapshot r)) ∧
  Forall (λ h, filled (history_snapshot h))
         (tasks_history (committed (exec conn now (menu_call m)))).
Proof.
  destruct conn as [db wk]. unfold synced. simpl. intros -> HP.
  set (conn := {| committed := db; working := db |}).
  pose proof HP as [Hstore Hlog].
  destruct m as [t d p | id t d s p | id | id | hid]; simpl.
  - rewrite add_task_text. apply written_filled; [done | | by left].
    simpl. repeat split; eauto. eexists. split; [done |].
    unfold typed. by case_bool_decide.
  - destruct (tasks (working conn) !! id) as [OLD|] eqn:E.
    + destruct (decide ((typed t, typed d, typed s, typed p)
                        = (None, None, None, None))) as [Hnone | Hsome].
      * injection Hnone as -> -> -> ->. by erewrite update_task_nothing.
      * erewrite update_task_applied by done.
        apply written_filled; [done | | by left].
        destruct (Hstore id OLD E) as (_ & Hd & (x & Hx & Hxe) & (y & Hy & Hye)).
        simpl in *. repeat split; [by eexists | ..].
        -- destruct (typed d); simpl; eauto.
        -- destruct (typed s) eqn:Es; simpl; eauto using typed_not_empty.
        -- destruct (typed p) eqn:Ep; simpl; eauto using typed_not_empty.
    + rewrite update_task_absent by done. by destruct (in_int64 id).
  - unfold complete_task. destruct (tasks (working conn) !! id) as [OLD|] eqn:E.
    + erewrite update_task_applied by done.
      apply written_filled; [done | | by left].
      destruct (Hstore id OLD E) as (_ & Hd & _ & (y & Hy & Hye)).
      simpl in *. repeat split; eauto.
    + rewrite update_task_absent by done. by destruct (in_int64 id).
  - destruct (tasks (working conn) !! id) as [OLD|] eqn:E.
    + erewrite delete_task_present by done.
      apply written_filled; [done | by eapply Hstore | by right].
    + rewrite delete_task_absent by done. by destruct (in_int64 id).
  - destruct (select_from_tasks_history_where_history_id hid (working conn))
      as [h0|] eqn:E;
      [| rewrite restore_task_version_no_record by done;
         by destruct (in_int64 hid)].
    pose proof E as [Hin _]%select_history_found.
    rewrite Forall_forall in Hlog. pose proof (Hlog h0 Hin) as Hh0.
    unfold filled, history_snapshot in Hh0.
    destruct Hh0 as ([t Ht] & Hrest).
    destruct (tasks (working conn) !! task_id h0) as [OLD|] eqn:Ek.
    + erewrite restore_task_version_overwrites by done.
      apply written_filled; [done | | by left]. simpl. split; [by eexists | done].
    + erewrite restore_task_version_recreates by done.
      apply written_filled; [done | | by left]. simpl. split; [by eexists | done].
Qed.

(** After any session at the menu of [main] (add, edit, complete, delete,
    restore), no task of the store and no record of the log has a NULL
    description, status or priority, and no status or priority is empty:
    the only texts that can be empty are titles and descriptions. *)
Theorem menu_sessions_store_no_NULL (choices : list (timestamp * menu)) :
  (∀ id row, get (menu_run choices) id = Some row →
     is_Some (description row) ∧
     (∃ s, status row = Some s ∧ s ≠ EmptyString) ∧
     (∃ p, priority row = Some p ∧ p ≠ EmptyString)) ∧
  (∀ h, h ∈ history_log (menu_run choices) →
     is_Some (h_title h) ∧ is_Some (h_description h) ∧
     (∃ s, h_status h = Some s ∧ s ≠ EmptyString) ∧
     (∃ p, h_priority h = Some p ∧ p ≠ EmptyString)).
Proof.
  assert ((∀ k r, tasks (committed (menu_run choices)) !! k = Some r →
             filled (task_snapshot r)) ∧
          Forall (λ h, filled (history_snapshot h))
                 (tasks_history (committed (menu_run choices)))) as [Hstore Hlog].
  { unfold menu_run.
    induction choices as [|[now m] choices IH] using rev_ind.
    - split; [intros k r; simpl; by rewrite lookup_empty | constructor].
    - rewrite fmap_app. simpl. rewrite run_snoc.
      apply menu_call_filled; [apply run_invariant | done]. }
  split.
  - intros id row Hrow. destruct (Hstore id row Hrow) as (_ & H). exact H.
  - intros h Hin. rewrite Forall_forall in Hlog. exact (Hlog h Hin).
Qed.

(** ** Restoring the latest record, and the order of the log *)

(** Restoring from the most recent record of a task of the store changes
    none of its title, description, status and priority, yet it sets
    [updated_at] and appends one more UPDATE record with the same
    snapshot. *)
Theorem restore_latest_record_only_logs
    (session : list (timestamp * command)) (now : timestamp) (id : Z)
    (row : task) (h : history) :
  get (run session) id = Some row →
  most_recent (history_log (run session)) id h →
  let r := restore_task_version (run session) now (history_id h) in
  result r = Returned true ∧
  get (conn_after r) id
  = Some (Task (title row) (description row) (status row) (priority row)
               (created_at row) now) ∧
  ∃ h', history_log (conn_after r) = history_log (run session) ++ [h'] ∧
        operation h' = UPDATE ∧ task_id h' = id ∧
        history_snapshot h' = history_snapshot h.
Proof.
  intros Hrow Hrecent.
  destruct (run_invariant session) as [Hs Hc].
  pose proof Hc as [Hids _ Hlogged].
  destruct (Hlogged id row Hrow) as (h' & Hlast & Hsnap & _).
  assert (h = h') as <- by by eapply most_recent_is_last.
  destruct Hrecent as (Hin & Hid & _).
  destruct (restore_outcome (run session) now h Hs Hc Hin) as (t & Ht & Hr).
  cbv zeta. rewrite Hr, Hid, Hrow. cbn [result conn_after].
  unfold history_snapshot, task_snapshot in Hsnap.
  injection Hsnap as Ht' Hd Hst Hp. rewrite Ht' in Ht. injection Ht as <-.
  split; [done |]. split.
  - unfold get. rewrite committed_write_store by done.
    rewrite lookup_insert_eq. by rewrite Hd, Hst, Hp.
  - rewrite committed_write_log by done. eexists. split; [done |].
    repeat split. unfold history_snapshot. simpl. by rewrite Ht'.
Qed.

Lemma restore_latest_record_only_logs_witness :
  let session := [(10, Add (Some "A"%string) None None None)] in
  let r := restore_task_version (run session) 11 1 in
  result r = Returned true ∧
  get (conn_after r) 1 = Some (Task "A" None None None 10 11) ∧
  ∃ h', history_log (conn_after r) = history_log (run session) ++ [h'] ∧
        operation h' = UPDATE ∧ task_id h' = 1 ∧
        history_snapshot h'
        = history_snapshot (History 1 1 (Some "A"%string) None None None INSERT 10).
Proof.
  apply (restore_latest_record_only_logs
           [(10, Add (Some "A"%string) None None None)] 11 1
           (Task "A" None None None 10 10)
           (History 1 1 (Some "A"%string) None None None INSERT 10)).
  - vm_compute. reflexivity.
  - split; [vm_compute; left |]. split; [reflexivity |].
    intros h' Hin _. vm_compute in Hin.
    apply list_elem_of_singleton in Hin as ->. simpl. lia.
Defined.

(** When the clock never ran backwards during the session, the order of
    the history ids is chronological: a record with a smaller [history_id]
    has no later [changed_at]; and every [changed_at] is the clock reading
    of a command of the session. *)
Theorem history_id_order_is_chronological
    (session : list (timestamp * command)) :
  (∀ h, h ∈ history_log (run session) → changed_at h ∈ session.*1) ∧
  (clock_monotone session →
   ∀ a b, a ∈ history_log (run session) → b ∈ history_log (run session) →
          history_id a < history_id b → changed_at a ≤ changed_at b).
Proof.
  split.
  - apply Forall_forall, run_changed_at.
  - intros Hclock a b [i Hi]%list_elem_of_lookup [j Hj]%list_elem_of_lookup Hab.
    rewrite (run_numbered session i a Hi), (run_numbered session j b Hj) in Hab.
    apply (StronglySorted_lookup_le _ _ i j a b
             (run_changed_at_ascends session Hclock)); [lia | done | done].
Qed.

Lemma history_id_order_is_chronological_witness :
  changed_at (History 1 1 (Some "A"%string) None None None INSERT 10)
  ≤ changed_at (History 2 1 (Some "A"%string) None (Some "completed"%string)
                        None UPDATE 12).
Proof.
  apply (proj2 (history_id_order_is_chronological
           [(10, Add (Some "A"%string) None None None); (12, Complete 1)])).
  - unfold clock_monotone. simpl. repeat constructor; lia.
  - vm_compute. left.
  - vm_compute. right. left.
  - simpl. lia.
Defined.

(** ** Sessions at the menu print without [TypeError] *)

Lemma menu_run_filled (choices : list (timestamp * menu)) :
  (∀ k r, tasks (committed (menu_run choices)) !! k = Some r →
          filled (task_snapshot r)) ∧
  Forall (λ h, filled (history_snapshot h))
         (tasks_history (committed (menu_run choices))).
Proof.
  unfold menu_run.
  induction choices as [|[now m] choices IH] using rev_ind.
  - split; [intros k r; simpl; by rewrite lookup_empty | constructor].
  - rewrite fmap_app. simpl. rewrite run_snoc.
    apply menu_call_filled; [apply run_invariant | done].
Qed.

(** After any session at the menu of [main], [list_tasks] raises for no
    filter and [display_task_history] raises for no task id that fits 64
    bits: no row and no record they format holds a NULL. *)
Theorem menu_sessions_print_without_TypeError
    (choices : list (timestamp * menu)) :
  (∀ filter_status e,
     result (list_tasks (menu_run choices) filter_status) ≠ Raised e) ∧
  (∀ tid e, in_int64 tid = true →
     (display_task_history (menu_run choices) tid).2 ≠ Raised e).
Proof.
  destruct (menu_run_filled choices) as [Hstore Hlog].
  destruct (run_invariant ((λ tm, (tm.1, menu_call tm.2)) <$> choices))
    as [Hs _].
  fold (menu_run choices) in Hs. split.
  - intros f e [_ ([id row] & Hx & Hfx)]%list_tasks_raises.
    apply select_from_tasks_rows in Hx as [Hrow _]. rewrite Hs in Hrow.
    destruct (Hstore id row Hrow) as (_ & Hd & (x & Hx & _) & (y & Hy & _)).
    simpl in *. apply bool_decide_eq_false_1 in Hfx. apply Hfx.
    simpl. rewrite Hx, Hy. eauto.
  - intros tid e Hin. unfold display_task_history.
    rewrite get_task_history_returns by by left.
    set (rows := select_from_tasks_history_where_task_id tid
                   (working (menu_run choices))).
    assert (Forall (λ h, record_formats h = true) rows) as Hall.
    { apply Forall_forall. intros h Hh. unfold rows in Hh.
      unfold select_from_tasks_history_where_task_id in Hh.
      rewrite order_by_Permutation in Hh.
      apply list_elem_of_filter in Hh as [_ Hh]. rewrite Hs in Hh.
      rewrite Forall_forall in Hlog.
      destruct (Hlog h Hh) as (_ & _ & (x & Hx & _) & (y & Hy & _)).
      apply bool_decide_eq_true_2. rewrite Hx, Hy. eauto. }
    destruct rows as [|r rows']; [done |].
    by rewrite (print_each_all _ _ Hall).
Qed.
